(** * Filter presets route: GET and POST handlers of
    src/app/api/admin/filter-presets/route.ts

    The two handlers are embedded as functions in a small state-and-exception
    monad over an in-memory picture of the [filter_presets] table.  JavaScript
    strings are sequences of UTF-16 code units, JSON values are a tree type,
    and [JSON.stringify] / [JSON.parse] are written out on code units.  The
    only parts left abstract are the conversions between a finite Number and
    its decimal text, and Prisma's reading of a filter object given in place
    of a string: both are fields of the class [Platform].

    [GET] and [POST] are the functions that [withTenantContext] wraps; the
    wrapper is not part of the sources.  The table never fails: a call on the
    storage client throws only when the client rejects its arguments. *)

From Stdlib Require Import List String Ascii Bool Arith NArith ZArith Lia.
From Stdlib Require Import Sorting.Sorted Sorting.Permutation.
From Stdlib Require DecimalFacts DecimalPos DecimalN.
Import ListNotations.

Set Implicit Arguments.
Set Warnings "-register-all,-notation-for-abbreviation".
Set Warnings "-deprecated".


(** ** JavaScript strings *)

(** A string is its sequence of UTF-16 code units, each kept as its number;
    the handlers and the JSON functions below only ever produce numbers
    under 65536. *)
Notation codeunit := N (only parsing).
Notation jsstring := (list N) (only parsing).

Definition ch (a : ascii) : codeunit := N_of_ascii a.

(** [js "users"] is the JavaScript string literal ['users']. *)
Definition js (s : string) : jsstring := map ch (list_ascii_of_string s).

Arguments js s%_string.

Fixpoint String_eqb (a b : jsstring) : bool :=
  match a, b with
  | [], [] => true
  | x :: a', y :: b' => N.eqb x y && String_eqb a' b'
  | _, _ => false
  end.

(** ** Values *)

(** Number values: the finite ones are taken from the platform. *)
Inductive Num (F : Type) : Type :=
| NFinite (x : F)
| NInfinity (negative : bool)
| NNaN.

Arguments NInfinity {F} negative.
Arguments NNaN {F}.

(** What [JSON.parse] can return, and what [request.json()] resolves to. *)
Inductive Json (F : Type) : Type :=
| JNull
| JBool (b : bool)
| JNum (n : Num F)
| JStr (s : jsstring)
| JArr (l : list (Json F))
| JObj (o : list (jsstring * Json F)).

Arguments JNull {F}.
Arguments JBool {F} b.
Arguments JStr {F} s.

(** The parts of the JavaScript engine and of the Prisma client that are not
    written out here. *)
Class Platform : Type := {
  (** finite Number values *)
  fin : Type;
  (** [x] is +0 or -0 *)
  fin_zero : fin -> bool;
  (** [x] is -0 *)
  fin_negzero : fin -> bool;
  (** the Number +0 *)
  fin_positive_zero : fin;
  (** Number::toString in radix 10 *)
  NumberToString : fin -> jsstring;
  (** reads the JSON number at the head of a text and converts it, returning
      the rest of the text *)
  scanNumber : jsstring -> option (Num fin * jsstring);
  (** Prisma's reading of an object passed where a string is filtered
      (a [StringFilter] such as [{ contains: ... }]); [None] when the client
      rejects the value *)
  prismaStringFilter : list (jsstring * Json fin) -> option (jsstring -> bool)
}.

(** Numbers with integral values, in sign and magnitude; enough to run the
    handlers on concrete requests. *)
Definition IntNumber : Type := (bool * N)%type.

Fixpoint digits_of_uint (d : Decimal.uint) : jsstring :=
  match d with
  | Decimal.Nil => []
  | Decimal.D0 d => 48%N :: digits_of_uint d
  | Decimal.D1 d => 49%N :: digits_of_uint d
  | Decimal.D2 d => 50%N :: digits_of_uint d
  | Decimal.D3 d => 51%N :: digits_of_uint d
  | Decimal.D4 d => 52%N :: digits_of_uint d
  | Decimal.D5 d => 53%N :: digits_of_uint d
  | Decimal.D6 d => 54%N :: digits_of_uint d
  | Decimal.D7 d => 55%N :: digits_of_uint d
  | Decimal.D8 d => 56%N :: digits_of_uint d
  | Decimal.D9 d => 57%N :: digits_of_uint d
  end.

Definition is_digit (c : codeunit) : bool := (48 <=? c)%N && (c <=? 57)%N.

Definition digit_of (c : codeunit) : option (Decimal.uint -> Decimal.uint) :=
  match c with
  | 48 => Some Decimal.D0
  | 49 => Some Decimal.D1
  | 50 => Some Decimal.D2
  | 51 => Some Decimal.D3
  | 52 => Some Decimal.D4
  | 53 => Some Decimal.D5
  | 54 => Some Decimal.D6
  | 55 => Some Decimal.D7
  | 56 => Some Decimal.D8
  | 57 => Some Decimal.D9
  | _ => None
  end%N.

(** Reads a run of decimal digits, most significant first. *)
Fixpoint scan_uint (s : jsstring) : Decimal.uint * jsstring :=
  match s with
  | c :: r =>
      match digit_of c with
      | Some d => let (u, rest) := scan_uint r in (d u, rest)
      | None => (Decimal.Nil, s)
      end
  | [] => (Decimal.Nil, [])
  end.

Definition scan_digits (s : jsstring) : N * jsstring :=
  let (u, rest) := scan_uint s in (N.of_uint u, rest).

Definition int_to_string (x : IntNumber) : jsstring :=
  let (neg, n) := x in
  if (n =? 0)%N then js "0"
  else (if neg then js "-" else []) ++ digits_of_uint (N.to_uint n).

(** The JSON grammar for the integer part: a single 0, or a digit run that
    does not start with 0. *)
Definition scan_int_magnitude (s : jsstring) : option (N * jsstring) :=
  match s with
  | c :: r =>
      if (c =? 48)%N then Some (0%N, r)
      else if is_digit c then Some (scan_digits s)
      else None
  | [] => None
  end.

Definition int_scan (s : jsstring) : option (Num IntNumber * jsstring) :=
  match s with
  | c :: r =>
      if (c =? 45)%N then
        match scan_int_magnitude r with
        | Some (n, r') => Some (NFinite (true, n), r')
        | None => None
        end
      else
        match scan_int_magnitude s with
        | Some (n, r') => Some (NFinite (false, n), r')
        | None => None
        end
  | [] => None
  end.

#[export] Instance IntPlatform : Platform := {
  fin := IntNumber;
  fin_zero := fun x => (snd x =? 0)%N;
  fin_negzero := fun x => fst x && (snd x =? 0)%N;
  fin_positive_zero := (false, 0%N);
  NumberToString := int_to_string;
  scanNumber := int_scan;
  prismaStringFilter := fun _ => None
}.

Section Model.

Context {P : Platform}.

Notation number := (Num fin).
Notation json := (Json fin).
Notation object := (list (jsstring * Json fin)).

(** ** Property access and truthiness *)

(** A possibly [undefined] value is an [option json]. *)

Fixpoint obj_get (o : object) (k : jsstring) : option json :=
  match o with
  | [] => None
  | (k', v) :: o' => if String_eqb k' k then Some v else obj_get o' k
  end.

(** [v.k] for a value that is not [null]: only objects carry the keys the
    handlers read (none of them is [length] or an array index). *)
Definition get_prop (v : json) (k : jsstring) : option json :=
  match v with
  | JObj o => obj_get o k
  | _ => None
  end.

Definition number_truthy (n : number) : bool :=
  match n with
  | NFinite x => negb (fin_zero x)
  | NInfinity _ => true
  | NNaN => false
  end.

Definition json_truthy (v : json) : bool :=
  match v with
  | JNull => false
  | JBool b => b
  | JNum n => number_truthy n
  | JStr s => match s with [] => false | _ => true end
  | JArr _ => true
  | JObj _ => true
  end.

(** ToBoolean of a possibly undefined value. *)
Definition truthy (v : option json) : bool :=
  match v with
  | None => false
  | Some x => json_truthy x
  end.

(** [v || d] *)
Definition or_else (v : option json) (d : json) : json :=
  match v with
  | Some x => if json_truthy x then x else d
  | None => d
  end.

(** ** JSON.stringify *)

Definition hex_digit (n : N) : codeunit :=
  if (n <? 10)%N then (48 + n)%N else (87 + n)%N.

(** UnicodeEscape: a backslash, [u] and four lower-case hexadecimal digits. *)
Definition UnicodeEscape (c : codeunit) : jsstring :=
  [92; 117;
   hex_digit ((c / 4096) mod 16); hex_digit ((c / 256) mod 16);
   hex_digit ((c / 16) mod 16); hex_digit (c mod 16)]%N.

(** The two-character escapes of QuoteJSONString. *)
Definition short_escape (c : codeunit) : option codeunit :=
  match c with
  | 8 => Some 98      (* backspace: b *)
  | 9 => Some 116     (* tab: t *)
  | 10 => Some 110    (* line feed: n *)
  | 12 => Some 102    (* form feed: f *)
  | 13 => Some 114    (* carriage return: r *)
  | 34 => Some 34     (* double quote *)
  | 92 => Some 92     (* backslash *)
  | _ => None
  end%N.

Definition is_control (c : codeunit) : bool := (c <? 32)%N.
Definition is_lead_surrogate (c : codeunit) : bool := (55296 <=? c)%N && (c <=? 56319)%N.
Definition is_trail_surrogate (c : codeunit) : bool := (56320 <=? c)%N && (c <=? 57343)%N.

(** The body of QuoteJSONString: a surrogate pair is copied, a surrogate on
    its own is escaped. *)
Fixpoint quote_units (s : jsstring) : jsstring :=
  match s with
  | [] => []
  | c :: r =>
      match short_escape c with
      | Some e => 92%N :: e :: quote_units r
      | None =>
          if is_control c then UnicodeEscape c ++ quote_units r
          else if is_lead_surrogate c then
            match r with
            | d :: r' =>
                if is_trail_surrogate d then c :: d :: quote_units r'
                else UnicodeEscape c ++ quote_units r
            | [] => UnicodeEscape c
            end
          else if is_trail_surrogate c then UnicodeEscape c ++ quote_units r
          else c :: quote_units r
      end
  end.

Definition QuoteJSONString (s : jsstring) : jsstring :=
  34%N :: quote_units s ++ [34%N].

Definition stringify_number (n : number) : jsstring :=
  match n with
  | NFinite x => NumberToString x
  | _ => js "null"
  end.

(** SerializeJSONProperty without a replacer or an indent. *)
Fixpoint JSON_stringify (v : json) : jsstring :=
  match v with
  | JNull => js "null"
  | JBool true => js "true"
  | JBool false => js "false"
  | JNum n => stringify_number n
  | JStr s => QuoteJSONString s
  | JArr l =>
      91%N ::
      (fix elements (l : list json) : jsstring :=
         match l with
         | [] => []
         | [x] => JSON_stringify x
         | x :: l' => JSON_stringify x ++ 44%N :: elements l'
         end) l ++ [93%N]
  | JObj o =>
      123%N ::
      (fix members (o : object) : jsstring :=
         match o with
         | [] => []
         | [(k, x)] => QuoteJSONString k ++ 58%N :: JSON_stringify x
         | (k, x) :: o' => QuoteJSONString k ++ 58%N :: JSON_stringify x ++ 44%N :: members o'
         end) o ++ [125%N]
  end.

(** ** JSON.parse *)

Definition is_ws (c : codeunit) : bool :=
  match c with
  | 9 | 10 | 13 | 32 => true
  | _ => false
  end%N.

Fixpoint skip_ws (s : jsstring) : jsstring :=
  match s with
  | c :: r => if is_ws c then skip_ws r else s
  | [] => []
  end.

Definition hex_value (c : codeunit) : option N :=
  if is_digit c then Some (c - 48)%N
  else if (97 <=? c)%N && (c <=? 102)%N then Some (c - 87)%N
  else if (65 <=? c)%N && (c <=? 70)%N then Some (c - 55)%N
  else None.

Definition hex4 (a b c d : codeunit) : option codeunit :=
  match hex_value a, hex_value b, hex_value c, hex_value d with
  | Some x, Some y, Some z, Some w => Some (x * 4096 + y * 256 + z * 16 + w)%N
  | _, _, _, _ => None
  end.

Definition unescape (e : codeunit) : option codeunit :=
  match e with
  | 34 => Some 34
  | 92 => Some 92
  | 47 => Some 47
  | 98 => Some 8
  | 102 => Some 12
  | 110 => Some 10
  | 114 => Some 13
  | 116 => Some 9
  | _ => None
  end%N.

(** The characters of a JSON string after its opening quote, up to and
    including the closing quote. *)
Fixpoint parse_string_chars (s : jsstring) : option (jsstring * jsstring) :=
  match s with
  | [] => None
  | c :: r =>
      if (c =? 34)%N then Some ([], r)
      else if (c =? 92)%N then
        match r with
        | e :: r' =>
            if (e =? 117)%N then
              match r' with
              | h1 :: h2 :: h3 :: h4 :: r'' =>
                  match hex4 h1 h2 h3 h4 with
                  | Some u =>
                      match parse_string_chars r'' with
                      | Some (t, rest) => Some (u :: t, rest)
                      | None => None
                      end
                  | None => None
                  end
              | _ => None
              end
            else
              match unescape e with
              | Some u =>
                  match parse_string_chars r' with
                  | Some (t, rest) => Some (u :: t, rest)
                  | None => None
                  end
              | None => None
              end
        | [] => None
        end
      else if is_control c then None
      else
        match parse_string_chars r with
        | Some (t, rest) => Some (c :: t, rest)
        | None => None
        end
  end.

(** A key that is an array index: the canonical decimal text of an integer
    below 2^32 - 1. *)
Definition array_index (k : jsstring) : option N :=
  match k with
  | [] => None
  | c :: r =>
      if forallb is_digit k then
        if (c =? 48)%N then match r with [] => Some 0%N | _ => None end
        else
          let n := fst (scan_digits k) in
          if (n <? 4294967295)%N then Some n else None
      else None
  end.

(** The order in which an object lists its own keys: array indices first, by
    value, then the other keys as they were created. *)
Definition key_before (a b : jsstring) : bool :=
  match array_index a, array_index b with
  | Some i, Some j => (i <? j)%N
  | Some _, None => true
  | None, Some _ => false
  | None, None => true
  end.

Fixpoint obj_has (o : object) (k : jsstring) : bool :=
  match o with
  | [] => false
  | (k', _) :: o' => String_eqb k' k || obj_has o' k
  end.

Fixpoint obj_replace (o : object) (k : jsstring) (v : json) : object :=
  match o with
  | [] => []
  | (k', v') :: o' =>
      if String_eqb k' k then (k', v) :: o' else (k', v') :: obj_replace o' k v
  end.

Fixpoint obj_insert (o : object) (k : jsstring) (v : json) : object :=
  match o with
  | [] => [(k, v)]
  | (k', v') :: o' =>
      if key_before k' k then (k', v') :: obj_insert o' k v else (k, v) :: o
  end.

(** CreateDataProperty on an object under construction: a repeated key keeps
    its place and takes the later value. *)
Definition obj_define (o : object) (k : jsstring) (v : json) : object :=
  if obj_has o k then obj_replace o k v else obj_insert o k v.

Definition is_number_start (c : codeunit) : bool := (c =? 45)%N || is_digit c.

Definition strip_prefix (p s : jsstring) : option jsstring :=
  if String_eqb (firstn (List.length p) s) p then Some (skipn (List.length p) s) else None.

(** The recursive-descent parser, on a text whose leading white space has
    been skipped; [n] bounds the depth of the calls. *)
Fixpoint parse_value (n : nat) (s : jsstring) {struct n} : option (json * jsstring) :=
  match n with
  | O => None
  | S n' =>
      match s with
      | [] => None
      | c :: r =>
          if (c =? 123)%N then
            match skip_ws r with
            | c' :: r' =>
                if (c' =? 125)%N then Some (JObj [], r')
                else parse_members n' [] (skip_ws r)
            | [] => None
            end
          else if (c =? 91)%N then
            match skip_ws r with
            | c' :: r' =>
                if (c' =? 93)%N then Some (JArr [], r')
                else parse_elements n' [] (skip_ws r)
            | [] => None
            end
          else if (c =? 34)%N then
            match parse_string_chars r with
            | Some (t, rest) => Some (JStr t, rest)
            | None => None
            end
          else if (c =? 116)%N then option_map (pair (JBool true)) (strip_prefix (js "true") s)
          else if (c =? 102)%N then option_map (pair (JBool false)) (strip_prefix (js "false") s)
          else if (c =? 110)%N then option_map (pair JNull) (strip_prefix (js "null") s)
          else if is_number_start c then
            match scanNumber s with
            | Some (x, rest) => Some (JNum x, rest)
            | None => None
            end
          else None
      end
  end

with parse_elements (n : nat) (acc : list json) (s : jsstring) {struct n}
  : option (json * jsstring) :=
  match n with
  | O => None
  | S n' =>
      match parse_value n' s with
      | Some (v, r) =>
          match skip_ws r with
          | c :: r' =>
              if (c =? 44)%N then parse_elements n' (acc ++ [v]) (skip_ws r')
              else if (c =? 93)%N then Some (JArr (acc ++ [v]), r')
              else None
          | [] => None
          end
      | None => None
      end
  end

with parse_members (n : nat) (acc : object) (s : jsstring) {struct n}
  : option (json * jsstring) :=
  match n with
  | O => None
  | S n' =>
      match s with
      | c :: r =>
          if (c =? 34)%N then
            match parse_string_chars r with
            | Some (k, r1) =>
                match skip_ws r1 with
                | c1 :: r2 =>
                    if (c1 =? 58)%N then
                      match parse_value n' (skip_ws r2) with
                      | Some (v, r3) =>
                          match skip_ws r3 with
                          | c3 :: r4 =>
                              if (c3 =? 44)%N then parse_members n' (obj_define acc k v) (skip_ws r4)
                              else if (c3 =? 125)%N then Some (JObj (obj_define acc k v), r4)
                              else None
                          | [] => None
                          end
                      | None => None
                      end
                    else None
                | [] => None
                end
            | None => None
            end
          else None
      | [] => None
      end
  end.

(** [JSON.parse text]; [None] stands for the SyntaxError. *)
Definition JSON_parse (text : jsstring) : option json :=
  match parse_value (S (List.length text)) (skip_ws text) with
  | Some (v, r) => match skip_ws r with [] => Some v | _ => None end
  | None => None
  end.

End Model.

(** ** The tables *)

(** The columns of [filter_presets] that [findMany] selects; [FC] is the type
    of [filterConfig], text in the table and a value in the responses. *)
Record Scalars (FC : Type) : Type := {
  id : jsstring;
  name : jsstring;
  description : option jsstring;
  entityType : jsstring;
  filterConfig : FC;
  filterLogic : jsstring;
  isPublic : bool;
  isDefault : bool;
  icon : option jsstring;
  color : option jsstring;
  usageCount : Z;
  lastUsedAt : option Z;
  createdAt : Z;
  updatedAt : Z
}.

(** Modelled from the spec: the table declaration (the Prisma schema) is not
    part of the sources.  A row carries the fields of the spec's data model;
    in the table [FC] is text, [filterConfig] being persisted serialized. *)
Record Stored (FC : Type) : Type := {
  tenantId : jsstring;
  createdBy : jsstring;
  scalars : Scalars FC
}.

Notation Row := (Stored jsstring) (only parsing).

(** The [creator] relation as both handlers select it. *)
Record Creator : Type := {
  creator_id : jsstring;
  creator_name : option jsstring;
  creator_image : option jsstring
}.

(** An element of the list response: the selected columns and the creator. *)
Record Listed (FC : Type) : Type := {
  listed : Scalars FC;
  listed_creator : option Creator
}.

(** The created preset with [include: { creator }]. *)
Record WithCreator (FC : Type) : Type := {
  preset : Stored FC;
  creator : option Creator
}.

(** What the storage engine fills in for the columns [create] is not given. *)
Record Generated : Type := {
  new_id : jsstring;
  new_isDefault : bool;
  new_usageCount : Z;
  new_lastUsedAt : option Z;
  new_createdAt : Z;
  new_updatedAt : Z
}.

(** ** Queries *)

(** A [where] object without [OR]; an absent key puts no condition. *)
Record Clause : Type := {
  w_tenantId : option jsstring;
  w_entityType : option jsstring;
  w_isPublic : option bool;
  w_createdBy : option jsstring
}.

Record WhereInput : Type := {
  w_fields : Clause;
  w_OR : option (list Clause)
}.

Inductive SortField : Type := by_isDefault | by_usageCount | by_createdAt.
Inductive SortOrder : Type := asc | desc.
Definition OrderBy : Type := list (SortField * SortOrder).

Definition opt_test {A : Type} (eqb : A -> A -> bool) (c : option A) (x : A) : bool :=
  match c with
  | None => true
  | Some y => eqb x y
  end.

Definition clause_matches (c : Clause) (r : Row) : bool :=
  opt_test String_eqb (w_tenantId c) (tenantId r)
  && opt_test String_eqb (w_entityType c) (entityType (scalars r))
  && opt_test Bool.eqb (w_isPublic c) (isPublic (scalars r))
  && opt_test String_eqb (w_createdBy c) (createdBy r).

(** The top-level keys are conjoined; [OR] asks for one of its clauses. *)
Definition where_matches (w : WhereInput) (r : Row) : bool :=
  clause_matches (w_fields w) r
  && match w_OR w with
     | None => true
     | Some cs => existsb (fun c => clause_matches c r) cs
     end.

Definition field_compare (f : SortField) (a b : Row) : comparison :=
  match f with
  | by_isDefault => Bool.compare (isDefault (scalars a)) (isDefault (scalars b))
  | by_usageCount => Z.compare (usageCount (scalars a)) (usageCount (scalars b))
  | by_createdAt => Z.compare (createdAt (scalars a)) (createdAt (scalars b))
  end.

Definition directed_compare (f : SortField) (o : SortOrder) (a b : Row) : comparison :=
  match o with
  | asc => field_compare f a b
  | desc => field_compare f b a
  end.

(** Lexicographic comparison along [orderBy]; [Lt] puts [a] first. *)
Fixpoint order_compare (ob : OrderBy) (a b : Row) : comparison :=
  match ob with
  | [] => Eq
  | (f, o) :: ob' =>
      match directed_compare f o a b with
      | Eq => order_compare ob' a b
      | c => c
      end
  end.

Definition order_leb (ob : OrderBy) (a b : Row) : bool :=
  match order_compare ob a b with
  | Gt => false
  | _ => true
  end.

Fixpoint insert_row (ob : OrderBy) (x : Row) (l : list Row) : list Row :=
  match l with
  | [] => [x]
  | y :: l' => if order_leb ob x y then x :: l else y :: insert_row ob x l'
  end.

(** The rows in the order the query asks for; rows that compare equal keep
    their table order. *)
Fixpoint sort_rows (ob : OrderBy) (l : list Row) : list Row :=
  match l with
  | [] => []
  | x :: l' => insert_row ob x (sort_rows ob l')
  end.

(** ** Caller, request, response *)

(** Modelled from the spec: [requireTenantContext] of [@/lib/tenant-utils] is
    not part of the sources.  The record is what it returns, the identity the
    context provider supplies for the request; [None] is null or undefined. *)
Record TenantContext : Type := {
  ctx_userId : option jsstring;
  ctx_tenantId : option jsstring
}.

Definition searchParams_get (ps : list (jsstring * jsstring)) (k : jsstring) : option jsstring :=
  match find (fun p => String_eqb (fst p) k) ps with
  | Some p => Some (snd p)
  | None => None
  end.

Inductive Exn : Type := TypeError | SyntaxError | PrismaClientValidationError.

Section Handlers.

Context {P : Platform}.

Notation json := (Json fin).

(** A request: the entries of [new URL(request.url).searchParams] and what
    [request.json()] resolves to ([None] when it rejects). *)
Record NextRequest : Type := {
  searchParams : list (jsstring * jsstring);
  request_json : option json
}.

(** Modelled from the spec: the [respond] helper of [@/lib/api-response] is
    not part of the sources; each outcome stands for the response of the
    spec's status table (200, 201, 401, 400, 409, 500). *)
Inductive Response : Type :=
| Ok (data : list (Listed json))
| Created (data : WithCreator json)
| Unauthorized
| BadRequest (message : jsstring)
| Conflict (message : jsstring)
| ServerError (message : jsstring).

(** The arguments of the two writes and reads of [POST]. *)
Record FindFirstArgs : Type := {
  where_tenantId : jsstring;
  where_name : json;
  where_createdBy : jsstring
}.

Record CreateData : Type := {
  data_tenantId : jsstring;
  data_name : json;
  data_description : json;
  data_entityType : json;
  data_filterConfig : jsstring;
  data_filterLogic : json;
  data_isPublic : json;
  data_icon : json;
  data_color : json;
  data_createdBy : jsstring
}.

(** One call on [prisma.filter_presets]. *)
Inductive Query : Type :=
| QFindMany (where_ : WhereInput) (orderBy : OrderBy)
| QFindFirst (args : FindFirstArgs)
| QCreate (data : CreateData).

(** ** The monad of the handlers *)

Record World : Type := {
  presets : list Row;
  users : list Creator;
  queries : list Query;     (* calls made on the storage client, oldest first *)
  console : list jsstring   (* messages given to console.error *)
}.

Inductive Completion (A : Type) : Type :=
| Normal (a : A)
| Throw (e : Exn).

Arguments Throw {A} e.

Definition Async (A : Type) : Type := World -> Completion A * World.

Definition ret {A : Type} (a : A) : Async A := fun w => (Normal a, w).

Definition throw {A : Type} (e : Exn) : Async A := fun w => (Throw e, w).

Definition bind {A B : Type} (m : Async A) (k : A -> Async B) : Async B :=
  fun w =>
    match m w with
    | (Normal a, w') => k a w'
    | (Throw e, w') => (Throw e, w')
    end.

Notation "x <- m ;; k" := (bind m (fun x => k))
  (at level 61, m at next level, right associativity).

(** [try { m } catch (error) { h error }] *)
Definition try_catch {A : Type} (m : Async A) (h : Exn -> Async A) : Async A :=
  fun w =>
    match m w with
    | (Normal a, w') => (Normal a, w')
    | (Throw e, w') => h e w'
    end.

Definition add_console (msg : jsstring) (w : World) : World :=
  {| presets := presets w; users := users w;
     queries := queries w; console := console w ++ [msg] |}.

Definition add_query (q : Query) (w : World) : World :=
  {| presets := presets w; users := users w;
     queries := queries w ++ [q]; console := console w |}.

Definition add_preset (r : Row) (w : World) : World :=
  {| presets := presets w ++ [r]; users := users w;
     queries := queries w; console := console w |}.

Definition console_error (msg : jsstring) : Async unit :=
  fun w => (Normal tt, add_console msg w).

Definition record_query (q : Query) : Async unit :=
  fun w => (Normal tt, add_query q w).

Definition of_option {A : Type} (e : Exn) (o : option A) : Async A :=
  match o with
  | Some a => ret a
  | None => throw e
  end.

(** ** The storage client *)

Definition find_creator (us : list Creator) (uid : jsstring) : option Creator :=
  find (fun u => String_eqb (creator_id u) uid) us.

Definition select_listed (us : list Creator) (r : Row) : Listed jsstring :=
  {| listed := scalars r; listed_creator := find_creator us (createdBy r) |}.

(** [prisma.filter_presets.findMany({ where, select, orderBy })] with the
    [select] of [GET]. *)
Definition prisma_findMany (w : WhereInput) (ob : OrderBy) : Async (list (Listed jsstring)) :=
  _ <- record_query (QFindMany w ob) ;;
  fun s => (Normal (map (select_listed (users s))
                        (sort_rows ob (filter (where_matches w) (presets s)))), s).

(** The condition a [name] argument puts on the column: equality for a
    string, the client's reading for a filter object, and a validation error
    for anything else. *)
Definition name_condition (v : json) : option (jsstring -> bool) :=
  match v with
  | JStr s => Some (fun x => String_eqb x s)
  | JObj o => prismaStringFilter o
  | _ => None
  end.

(** [prisma.filter_presets.findFirst({ where: { tenantId, name, createdBy } })] *)
Definition prisma_findFirst (a : FindFirstArgs) : Async (option Row) :=
  _ <- record_query (QFindFirst a) ;;
  cond <- of_option PrismaClientValidationError (name_condition (where_name a)) ;;
  fun s => (Normal (find (fun r => String_eqb (tenantId r) (where_tenantId a)
                                   && cond (name (scalars r))
                                   && String_eqb (createdBy r) (where_createdBy a))
                         (presets s)), s).

Definition as_string (v : json) : option jsstring :=
  match v with
  | JStr s => Some s
  | _ => None
  end.

(** A nullable text column takes a string or null. *)
Definition as_nullable_string (v : json) : option (option jsstring) :=
  match v with
  | JStr s => Some (Some s)
  | JNull => Some None
  | _ => None
  end.

Definition as_boolean (v : json) : option bool :=
  match v with
  | JBool b => Some b
  | _ => None
  end.

(** The row a [create] call stores, when the client accepts its [data]. *)
Definition validate_create (g : Generated) (d : CreateData) : option Row :=
  match as_string (data_name d), as_nullable_string (data_description d),
        as_string (data_entityType d), as_string (data_filterLogic d),
        as_boolean (data_isPublic d),
        as_nullable_string (data_icon d), as_nullable_string (data_color d) with
  | Some n, Some de, Some et, Some fl, Some ip, Some ic, Some co =>
      Some {| tenantId := data_tenantId d;
              createdBy := data_createdBy d;
              scalars := {| id := new_id g; name := n; description := de;
                            entityType := et; filterConfig := data_filterConfig d;
                            filterLogic := fl; isPublic := ip;
                            isDefault := new_isDefault g; icon := ic; color := co;
                            usageCount := new_usageCount g;
                            lastUsedAt := new_lastUsedAt g;
                            createdAt := new_createdAt g;
                            updatedAt := new_updatedAt g |} |}
  | _, _, _, _, _, _, _ => None
  end.

(** [prisma.filter_presets.create({ data, include: { creator } })] *)
Definition prisma_create (g : Generated) (d : CreateData) : Async (WithCreator jsstring) :=
  _ <- record_query (QCreate d) ;;
  r <- of_option PrismaClientValidationError (validate_create g d) ;;
  fun s => (Normal {| preset := r; creator := find_creator (users s) (createdBy r) |},
            add_preset r s).

(** ** GET *)

(** The [where] object [GET] builds (lines 24 to 38). *)
Definition whereClause (tenant user entity : jsstring) (isPublic_ includeShared : bool)
  : WhereInput :=
  let base := {| w_tenantId := Some tenant; w_entityType := Some entity;
                 w_isPublic := None; w_createdBy := None |} in
  if isPublic_ then
    {| w_fields := {| w_tenantId := Some tenant; w_entityType := Some entity;
                      w_isPublic := Some true; w_createdBy := None |};
       w_OR := None |}
  else if includeShared then
    {| w_fields := base;
       w_OR := Some [ {| w_tenantId := None; w_entityType := None;
                         w_isPublic := Some true; w_createdBy := None |};
                      {| w_tenantId := None; w_entityType := None;
                         w_isPublic := None; w_createdBy := Some user |} ] |}
  else
    {| w_fields := {| w_tenantId := Some tenant; w_entityType := Some entity;
                      w_isPublic := None; w_createdBy := Some user |};
       w_OR := None |}.

Definition presetOrder : OrderBy :=
  [(by_isDefault, desc); (by_usageCount, desc); (by_createdAt, desc)].

(** [searchParams.get('entityType') || 'users'] *)
Definition query_entityType (ps : list (jsstring * jsstring)) : jsstring :=
  match searchParams_get ps (js "entityType") with
  | Some (c :: r) => c :: r
  | _ => js "users"
  end.

(** [searchParams.get('isPublic') === 'true'] *)
Definition query_isPublic (ps : list (jsstring * jsstring)) : bool :=
  match searchParams_get ps (js "isPublic") with
  | Some v => String_eqb v (js "true")
  | None => false
  end.

(** [searchParams.get('includeShared') !== 'false'] *)
Definition query_includeShared (ps : list (jsstring * jsstring)) : bool :=
  match searchParams_get ps (js "includeShared") with
  | Some v => negb (String_eqb v (js "false"))
  | None => true
  end.

Definition with_filterConfig {A B : Type} (s : Scalars A) (fc : B) : Scalars B :=
  {| id := id s; name := name s; description := description s;
     entityType := entityType s; filterConfig := fc; filterLogic := filterLogic s;
     isPublic := isPublic s; isDefault := isDefault s; icon := icon s;
     color := color s; usageCount := usageCount s; lastUsedAt := lastUsedAt s;
     createdAt := createdAt s; updatedAt := updatedAt s |}.

(** [{ ...p, filterConfig: JSON.parse(p.filterConfig) }]; the column is text,
    so the [typeof] test of line 75 takes its first branch. *)
Definition parse_listed (p : Listed jsstring) : option (Listed json) :=
  match JSON_parse (filterConfig (listed p)) with
  | Some v => Some {| listed := with_filterConfig (listed p) v;
                      listed_creator := listed_creator p |}
  | None => None
  end.

(** [presets.map(f)] for an [f] that may throw. *)
Fixpoint map_option {A B : Type} (f : A -> option B) (l : list A) : option (list B) :=
  match l with
  | [] => Some []
  | x :: l' =>
      match f x with
      | Some y =>
          match map_option f l' with
          | Some ys => Some (y :: ys)
          | None => None
          end
      | None => None
      end
  end.

Definition GET (ctx : option TenantContext) (request : NextRequest) : Async Response :=
  try_catch
    (match ctx with
     | Some {| ctx_userId := Some (u0 :: u); ctx_tenantId := Some (t0 :: t) |} =>
         let entityType_ := query_entityType (searchParams request) in
         let isPublic_ := query_isPublic (searchParams request) in
         let includeShared := query_includeShared (searchParams request) in
         found <- prisma_findMany
                    (whereClause (t0 :: t) (u0 :: u) entityType_ isPublic_ includeShared)
                    presetOrder ;;
         shaped <- of_option SyntaxError (map_option parse_listed found) ;;
         ret (Ok shaped)
     | _ => ret Unauthorized
     end)
    (fun error =>
       _ <- console_error (js "Failed to fetch filter presets:") ;;
       ret (ServerError (js "Failed to fetch presets"))).

(** ** POST *)

(** [{ ...preset, filterConfig: parsed }] *)
Definition with_parsed (r : Row) (parsed : json) : Stored json :=
  {| tenantId := tenantId r; createdBy := createdBy r;
     scalars := with_filterConfig (scalars r) parsed |}.

(** A destructuring default: taken only when the property is undefined. *)
Definition with_default (v : option json) (d : json) : json :=
  match v with
  | Some x => x
  | None => d
  end.

Definition POST (g : Generated) (ctx : option TenantContext) (request : NextRequest)
  : Async Response :=
  try_catch
    (match ctx with
     | Some {| ctx_userId := Some (u0 :: u); ctx_tenantId := Some (t0 :: t) |} =>
         body <- of_option SyntaxError (request_json request) ;;
         match body with
         | JNull => throw TypeError
         | _ =>
             let name_ := get_prop body (js "name") in
             let description_ := get_prop body (js "description") in
             let entityType_ := with_default (get_prop body (js "entityType")) (JStr (js "users")) in
             let filterConfig_ := get_prop body (js "filterConfig") in
             let isPublic_ := with_default (get_prop body (js "isPublic")) (JBool false) in
             let icon_ := get_prop body (js "icon") in
             let color_ := get_prop body (js "color") in
             match name_, filterConfig_ with
             | Some nm, Some fc =>
                 if negb (json_truthy nm) || negb (json_truthy fc) then
                   ret (BadRequest (js "Missing required fields: name, filterConfig"))
                 else
                   existing <- prisma_findFirst
                                 {| where_tenantId := t0 :: t; where_name := nm;
                                    where_createdBy := u0 :: u |} ;;
                   match existing with
                   | Some _ => ret (Conflict (js "Preset with this name already exists"))
                   | None =>
                       let filterLogic_ := or_else (get_prop fc (js "logic")) (JStr (js "AND")) in
                       created <- prisma_create g
                                    {| data_tenantId := t0 :: t;
                                       data_name := nm;
                                       data_description := or_else description_ JNull;
                                       data_entityType := entityType_;
                                       data_filterConfig := JSON_stringify fc;
                                       data_filterLogic := filterLogic_;
                                       data_isPublic := isPublic_;
                                       data_icon := or_else icon_ JNull;
                                       data_color := or_else color_ JNull;
                                       data_createdBy := u0 :: u |} ;;
                       parsed <- of_option SyntaxError
                                   (JSON_parse (filterConfig (scalars (preset created)))) ;;
                       ret (Created {| preset := with_parsed (preset created) parsed;
                                       creator := creator created |})
                   end
             | _, _ => ret (BadRequest (js "Missing required fields: name, filterConfig"))
             end
         end
     | _ => ret Unauthorized
     end)
    (fun error =>
       _ <- console_error (js "Failed to create filter preset:") ;;
       ret (ServerError (js "Failed to create preset"))).

End Handlers.

(** ** Predicates used in the statements *)

Section Statements.

Context {P : Platform}.

Notation json := (Json fin).
Notation object := (list (jsstring * Json fin)).

(** The keys of an object as JavaScript lists them: pairwise distinct, array
    indices first and increasing. *)
Fixpoint keys_canonical (ks : list jsstring) : bool :=
  match ks with
  | [] => true
  | k :: ks' =>
      forallb (fun k' => negb (String_eqb k k') && key_before k k') ks'
      && keys_canonical ks'
  end.

(** A tree that is a JavaScript value: every object in it lists its keys in
    the canonical order. *)
Fixpoint js_value (v : json) : bool :=
  match v with
  | JArr l => forallb js_value l
  | JObj o =>
      keys_canonical (map fst o)
      && (fix members (o : object) : bool :=
            match o with
            | [] => true
            | (_, x) :: o' => js_value x && members o'
            end) o
  | _ => true
  end.


(** What comes back for a number written by [JSON.stringify]: null for a
    number that is not finite, +0 for -0, the number itself otherwise. *)
Definition read_back_number (n : Num fin) : json :=
  match n with
  | NFinite x => JNum (NFinite (if fin_negzero x then fin_positive_zero else x))
  | _ => JNull
  end.

(** The value [JSON.parse(JSON.stringify(v))]. *)
Fixpoint read_back (v : json) : json :=
  match v with
  | JNum n => read_back_number n
  | JArr l => JArr (map read_back l)
  | JObj o =>
      JObj ((fix members (o : object) : object :=
               match o with
               | [] => []
               | (k, x) :: o' => (k, read_back x) :: members o'
               end) o)
  | other => other
  end.

Definition read_back_members : object -> object :=
  fix members (o : object) : object :=
    match o with
    | [] => []
    | (k, x) :: o' => (k, read_back x) :: members o'
    end.





(** What may follow a value inside a JSON text. *)
Definition delimited (rest : jsstring) : bool :=
  match rest with
  | [] => true
  | c :: _ => (c =? 44)%N || (c =? 93)%N || (c =? 125)%N
  end.

(** The law of Number::toString the round trip rests on (ECMA-262, note to
    Number::toString: reading the text of a Number other than -0 gives the
    same Number back; the text of -0 is that of +0), together with the shape
    of the text: it starts as a JSON number does. *)
Definition NumberRoundTrip : Prop :=
  fin_zero fin_positive_zero = true
  /\ forall x : fin,
       (fin_negzero x = true -> fin_zero x = true)
       /\ (exists c tl, NumberToString x = c :: tl /\ is_number_start c = true)
       /\ (forall rest, delimited rest = true ->
             scanNumber (NumberToString x ++ rest)
             = Some (NFinite (if fin_negzero x then fin_positive_zero else x), rest)).

(** Depth of the parser's calls on the text of a value. *)
Fixpoint cost (v : json) : nat :=
  match v with
  | JArr l =>
      S ((fix elements (l : list json) : nat :=
            match l with
            | [] => O
            | x :: l' => S (cost x + elements l')
            end) l)
  | JObj o =>
      S ((fix members (o : object) : nat :=
            match o with
            | [] => O
            | (_, x) :: o' => S (cost x + members o')
            end) o)
  | _ => 1
  end.

(** What the round trip says of one value, with the depth of the calls and
    the rest of the text made explicit. *)
Definition reads_back (v : json) : Prop :=
  js_value v = true ->
  forall n rest, (cost v <= n)%nat -> delimited rest = true ->
    parse_value n (JSON_stringify v ++ rest) = Some (read_back v, rest).

(** The inner loops of [cost], [JSON_stringify], [js_value] and
    [finite_numbers], under names of their own. *)
Definition cost_elements : list json -> nat :=
  fix elements (l : list json) : nat :=
    match l with
    | [] => O
    | x :: l' => S (cost x + elements l')
    end.

Definition cost_members : object -> nat :=
  fix members (o : object) : nat :=
    match o with
    | [] => O
    | (_, x) :: o' => S (cost x + members o')
    end.

Definition stringify_elements : list json -> jsstring :=
  fix elements (l : list json) : jsstring :=
    match l with
    | [] => []
    | [x] => JSON_stringify x
    | x :: l' => JSON_stringify x ++ 44%N :: elements l'
    end.

Definition stringify_members : object -> jsstring :=
  fix members (o : object) : jsstring :=
    match o with
    | [] => []
    | [(k, x)] => QuoteJSONString k ++ 58%N :: JSON_stringify x
    | (k, x) :: o' => QuoteJSONString k ++ 58%N :: JSON_stringify x ++ 44%N :: members o'
    end.

Definition members_ok (f : json -> bool) : object -> bool :=
  fix members (o : object) : bool :=
    match o with
    | [] => true
    | (_, x) :: o' => f x && members o'
    end.

(** The code units a JSON value can start with. *)
Definition is_value_start (c : codeunit) : bool :=
  (c =? 123)%N || (c =? 91)%N || (c =? 34)%N || (c =? 116)%N || (c =? 102)%N
  || (c =? 110)%N || is_number_start c.

(** The caller the handlers accept: a user and a tenant, both non-empty. *)
Definition identity (ctx : option TenantContext) : option (jsstring * jsstring) :=
  match ctx with
  | Some {| ctx_userId := Some (u0 :: u); ctx_tenantId := Some (t0 :: t) |} =>
      Some (u0 :: u, t0 :: t)
  | _ => None
  end.

(** The context is missing, or has no user, or has no tenant. *)
Definition lacks_identity (ctx : option TenantContext) : Prop :=
  match ctx with
  | None => True
  | Some c => ctx_userId c = None \/ ctx_tenantId c = None
  end.

(** The visibility rule in the words of the specification. *)
Definition visible (tenant user entity : jsstring) (isPublic_ includeShared : bool)
           (r : Row) : bool :=
  String_eqb (tenantId r) tenant
  && String_eqb (entityType (scalars r)) entity
  && (if isPublic_ then isPublic (scalars r)
      else if includeShared then isPublic (scalars r) || String_eqb (createdBy r) user
      else String_eqb (createdBy r) user).

(** [a] may stand before [b] in a list response: default first, then more
    used first, then more recently created first. *)
Definition listed_before {FC : Type} (a b : Scalars FC) : Prop :=
  (isDefault a = true /\ isDefault b = false)
  \/ (isDefault a = isDefault b
      /\ ((usageCount b < usageCount a)%Z
          \/ (usageCount a = usageCount b /\ (createdAt b <= createdAt a)%Z))).

Definition optional_text (v : option json) : bool :=
  match v with
  | Some (JStr _) => true
  | other => negb (truthy other)
  end.

(** A payload the storage client takes: a non-empty string as name, a
    [filterConfig], and for each optional field either nothing (or a falsy
    value where the handler replaces it) or a value of the column's type. *)
Definition accepted_payload (body : json) : bool :=
  match get_prop body (js "name") with
  | Some (JStr (_ :: _)) => true
  | _ => false
  end
  && truthy (get_prop body (js "filterConfig"))
  && optional_text (get_prop body (js "description"))
  && optional_text (get_prop body (js "icon"))
  && optional_text (get_prop body (js "color"))
  && match get_prop body (js "entityType") with
     | None | Some (JStr _) => true
     | _ => false
     end
  && match get_prop body (js "isPublic") with
     | None | Some (JBool _) => true
     | _ => false
     end
  && match get_prop body (js "filterConfig") with
     | Some fc => optional_text (get_prop fc (js "logic"))
     | None => false
     end.

(** A row of the caller with the given name exists. *)
Definition owns_name (tenant user nm : jsstring) (rows : list Row) : bool :=
  existsb (fun r => String_eqb (tenantId r) tenant
                    && String_eqb (name (scalars r)) nm
                    && String_eqb (createdBy r) user) rows.

(** [filterConfig] is omitted, or [name] is absent or empty. *)
Definition missing_required (body : json) : Prop :=
  get_prop body (js "filterConfig") = None
  \/ get_prop body (js "name") = None
  \/ get_prop body (js "name") = Some (JStr []).

(** The query [GET] makes for a caller, and the rows it answers with. *)
Definition list_query (user tenant : jsstring) (ps : list (jsstring * jsstring))
  : WhereInput :=
  whereClause tenant user (query_entityType ps) (query_isPublic ps)
              (query_includeShared ps).

Definition list_rows (user tenant : jsstring) (ps : list (jsstring * jsstring))
           (w : World) : list Row :=
  sort_rows presetOrder (filter (where_matches (list_query user tenant ps)) (presets w)).

(** The element of a list response that shows the row [r]. *)
Definition shows (us : list Creator) (r : Row) (it : Listed json) : Prop :=
  parse_listed (select_listed us r) = Some it.

(** The [data] that [POST] hands to [create]. *)
Definition post_data (user tenant : jsstring) (body nm fc : json) : CreateData :=
  {| data_tenantId := tenant;
     data_name := nm;
     data_description := or_else (get_prop body (js "description")) JNull;
     data_entityType := with_default (get_prop body (js "entityType")) (JStr (js "users"));
     data_filterConfig := JSON_stringify fc;
     data_filterLogic := or_else (get_prop fc (js "logic")) (JStr (js "AND"));
     data_isPublic := with_default (get_prop body (js "isPublic")) (JBool false);
     data_icon := or_else (get_prop body (js "icon")) JNull;
     data_color := or_else (get_prop body (js "color")) JNull;
     data_createdBy := user |}.

Definition post_lookup (user tenant : jsstring) (nm : json) : FindFirstArgs :=
  {| where_tenantId := tenant; where_name := nm; where_createdBy := user |}.

Definition failed_create (w : World) : Completion Response * World :=
  (Normal (ServerError (js "Failed to create preset")),
   add_console (js "Failed to create filter preset:") w).


End Statements.

(** ** Sample callers, tables and requests

    Numbers are the integral ones of [IntPlatform]. *)

Definition ann : jsstring := js "user-ann".
Definition bob : jsstring := js "user-bob".
Definition acme : jsstring := js "tenant-acme".

Definition ctx_ann : option TenantContext :=
  Some {| ctx_userId := Some ann; ctx_tenantId := Some acme |}.

Definition ctx_bob : option TenantContext :=
  Some {| ctx_userId := Some bob; ctx_tenantId := Some acme |}.

Definition ctx_no_user : option TenantContext :=
  Some {| ctx_userId := None; ctx_tenantId := Some acme |}.

Definition sample_row (i nm owner : string) (public default : bool) (used created : Z) : Row :=
  {| tenantId := acme;
     createdBy := js owner;
     scalars := {| id := js i; name := js nm; description := None;
                   entityType := js "users"; filterConfig := js "{}";
                   filterLogic := js "AND"; isPublic := public; isDefault := default;
                   icon := None; color := None; usageCount := used;
                   lastUsedAt := None; createdAt := created; updatedAt := created |} |}.

Definition empty_world : World :=
  {| presets := []; users := []; queries := []; console := [] |}.

Definition sample_world : World :=
  {| presets := [ sample_row "p1" "X" "user-ann" false false 3 100;
                  sample_row "p2" "Y" "user-bob" true false 7 200;
                  sample_row "p3" "Z" "user-ann" false true 0 300;
                  sample_row "p4" "W" "user-ann" true false 7 400 ];
     users := [ {| creator_id := ann; creator_name := Some (js "Ann");
                   creator_image := None |} ];
     queries := [];
     console := [] |}.

Definition generated (i : string) (now : Z) : Generated :=
  {| new_id := js i; new_isDefault := false; new_usageCount := 0;
     new_lastUsedAt := None; new_createdAt := now; new_updatedAt := now |}.

Definition list_request (ps : list (jsstring * jsstring)) : @NextRequest IntPlatform :=
  {| searchParams := ps; request_json := None |}.

Definition create_request (body : Json IntNumber) : @NextRequest IntPlatform :=
  {| searchParams := []; request_json := Some body |}.

(** [{ name: "X", filterConfig: { logic: "OR", conditions: [1, 2] },
       description: '' }] *)
Definition config_or : Json IntNumber :=
  JObj [ (js "logic", JStr (js "OR"));
         (js "conditions", JArr [ JNum (NFinite (false, 1%N)); JNum (NFinite (false, 2%N)) ]) ].

Definition body_x : Json IntNumber :=
  JObj [ (js "name", JStr (js "X")); (js "filterConfig", config_or);
         (js "description", JStr []) ].

(** [{ name: "X" }]: no [filterConfig]. *)
Definition body_name_only : Json IntNumber :=
  JObj [ (js "name", JStr (js "X")) ].



(** [{ name: "R", filterConfig: { max: Infinity } }], what [request.json()]
    gives for the text [{"name":"R","filterConfig":{"max":1e999}}]. *)
Definition config_overflow : Json IntNumber :=
  JObj [ (js "max", JNum (NInfinity false)) ].

Definition body_overflow : Json IntNumber :=
  JObj [ (js "name", JStr (js "R")); (js "filterConfig", config_overflow) ].

(** ** Further predicates and samples *)

(** What the uniqueness check of [POST] keeps distinct: tenant, owner, name. *)
Definition owner_key (r : Row) : list N * list N * list N :=
  (tenantId r, createdBy r, name (scalars r)).

(** A table in which one of Ann's rows holds text that is not JSON. *)
Definition unreadable_row : Row :=
  {| tenantId := acme;
     createdBy := ann;
     scalars := {| id := js "p9"; name := js "Broken"; description := None;
                   entityType := js "users"; filterConfig := js "{oops";
                   filterLogic := js "AND"; isPublic := false; isDefault := false;
                   icon := None; color := None; usageCount := 1;
                   lastUsedAt := None; createdAt := 900; updatedAt := 900 |} |}.

Definition unreadable_world : @World IntPlatform :=
  {| presets := presets sample_world ++ [unreadable_row];
     users := users sample_world; queries := []; console := [] |}.

(** [{ name: 7, filterConfig: {} }] *)
Definition body_number_name : Json IntNumber :=
  JObj [ (js "name", JNum (NFinite (false, 7%N))); (js "filterConfig", JObj []) ].

(** [{ name: "T", filterConfig: {}, description: 5 }] *)
Definition body_number_description : Json IntNumber :=
  JObj [ (js "name", JStr (js "T")); (js "filterConfig", JObj []);
         (js "description", JNum (NFinite (false, 5%N))) ].

(** [{ name: "P", filterConfig: { logic: "OR" }, isPublic: true,
       entityType: "clients" }] *)
Definition body_public_clients : Json IntNumber :=
  JObj [ (js "name", JStr (js "P"));
         (js "filterConfig", JObj [ (js "logic", JStr (js "OR")) ]);
         (js "isPublic", JBool true);
         (js "entityType", JStr (js "clients")) ].

(** * Properties *)

(** ** Strings *)

Lemma String_eqb_refl (a : jsstring) : String_eqb a a = true.
Proof.
  induction a as [|x a IH]; simpl; [reflexivity|].
  now rewrite N.eqb_refl, IH.
Qed.

Lemma String_eqb_eq (a b : jsstring) : String_eqb a b = true <-> a = b.
Proof.
  split.
  - revert b. induction a as [|x a IH]; intros [|y b] H; simpl in H;
      try discriminate; [reflexivity|].
    apply andb_true_iff in H. destruct H as [H1 H2].
    apply N.eqb_eq in H1. apply IH in H2. now subst.
  - intros ->. apply String_eqb_refl.
Qed.

Lemma String_eqb_neq (a b : jsstring) : String_eqb a b = false <-> a <> b.
Proof.
  split.
  - intros H E. apply String_eqb_eq in E. congruence.
  - intros H. destruct (String_eqb a b) eqn:E; [|reflexivity].
    apply String_eqb_eq in E. contradiction.
Qed.

(** ** The text of a string is read back *)

Lemma hex_value_digit (n : N) : (n < 16)%N -> hex_value (hex_digit n) = Some n.
Proof.
  intros H.
  destruct n as [|p]; [reflexivity|].
  do 4 (try (destruct p as [p|p|]; try reflexivity)); lia.
Qed.

Lemma hex4_UnicodeEscape (c : codeunit) :
  (c < 65536)%N ->
  hex4 (hex_digit ((c / 4096) mod 16)) (hex_digit ((c / 256) mod 16))
       (hex_digit ((c / 16) mod 16)) (hex_digit (c mod 16)) = Some c.
Proof.
  intros Hc. unfold hex4.
  rewrite !hex_value_digit by (apply N.mod_lt; discriminate).
  pose proof (N.div_mod c 16 ltac:(discriminate)) as H1.
  pose proof (N.div_mod (c / 16) 16 ltac:(discriminate)) as H2.
  pose proof (N.div_mod (c / 256) 16 ltac:(discriminate)) as H3.
  rewrite N.Div0.div_div in H2, H3.
  change (16 * 16)%N with 256%N in H2. change (256 * 16)%N with 4096%N in H3.
  assert (H4 : (c / 4096 < 16)%N) by (apply N.Div0.div_lt_upper_bound; exact Hc).
  rewrite (N.mod_small (c / 4096) 16) by exact H4.
  f_equal. lia.
Qed.

Lemma parse_UnicodeEscape (c : codeunit) (t : jsstring) :
  (c < 65536)%N ->
  parse_string_chars (UnicodeEscape c ++ t) =
  match parse_string_chars t with
  | Some (s, rest) => Some (c :: s, rest)
  | None => None
  end.
Proof.
  intros Hc. unfold UnicodeEscape.
  cbn [app parse_string_chars].
  change (92 =? 34)%N with false. change (92 =? 92)%N with true.
  change (117 =? 117)%N with true. cbv iota.
  now rewrite hex4_UnicodeEscape.
Qed.

Lemma short_escape_Some (c e : codeunit) :
  short_escape c = Some e -> (e =? 117)%N = false /\ unescape e = Some c.
Proof.
  unfold short_escape. intros H.
  destruct c as [|p]; [discriminate|].
  do 7 (try (destruct p as [p|p|]; try discriminate));
    injection H as <-; split; reflexivity.
Qed.

Lemma short_escape_None (c : codeunit) :
  short_escape c = None -> (c =? 34)%N = false /\ (c =? 92)%N = false.
Proof.
  intros H. split.
  - destruct (N.eqb_spec c 34) as [->|]; [discriminate|reflexivity].
  - destruct (N.eqb_spec c 92) as [->|]; [discriminate|reflexivity].
Qed.

Lemma parse_literal_unit (c : codeunit) (t : jsstring) :
  short_escape c = None -> is_control c = false ->
  parse_string_chars (c :: t) =
  match parse_string_chars t with
  | Some (s, rest) => Some (c :: s, rest)
  | None => None
  end.
Proof.
  intros Hs Hc. destruct (short_escape_None c Hs) as [H1 H2].
  cbn [parse_string_chars]. now rewrite H1, H2, Hc.
Qed.

Lemma surrogate_literal (c : codeunit) :
  is_lead_surrogate c || is_trail_surrogate c = true ->
  short_escape c = None /\ is_control c = false /\ (c < 65536)%N.
Proof.
  unfold is_lead_surrogate, is_trail_surrogate, is_control. intros H.
  assert (Hr : (55296 <= c <= 57343)%N).
  { apply orb_true_iff in H. destruct H as [H|H];
      apply andb_true_iff in H; destruct H as [H1 H2];
      apply N.leb_le in H1; apply N.leb_le in H2; lia. }
  split; [|split].
  - unfold short_escape.
    destruct c as [|p]; [lia|].
    do 7 (try (destruct p as [p|p|]; try reflexivity)); lia.
  - apply N.ltb_ge. lia.
  - lia.
Qed.

Lemma parse_quote_units_bounded (n : nat) :
  forall s rest, (List.length s <= n)%nat ->
    parse_string_chars (quote_units s ++ 34%N :: rest) = Some (s, rest).
Proof.
  induction n as [|n IH]; intros s rest Hlen.
  - destruct s; [reflexivity|simpl in Hlen; lia].
  - destruct s as [|c r]; [reflexivity|].
    simpl in Hlen.
    assert (Hr : forall rest', parse_string_chars (quote_units r ++ 34%N :: rest') = Some (r, rest'))
      by (intros; apply IH; lia).
    cbn [quote_units].
    destruct (short_escape c) as [e|] eqn:Hs.
    + destruct (short_escape_Some c Hs) as [He Hu].
      cbn [app parse_string_chars].
      change (92 =? 34)%N with false. change (92 =? 92)%N with true. cbv iota.
      now rewrite He, Hu, Hr.
    + destruct (is_control c) eqn:Hc.
      * rewrite <- app_assoc, parse_UnicodeEscape, Hr; [reflexivity|].
        unfold is_control in Hc. apply N.ltb_lt in Hc. lia.
      * destruct (is_lead_surrogate c) eqn:Hl.
        -- destruct (surrogate_literal c) as (_ & _ & Hb); [now rewrite Hl|].
           destruct r as [|d r'].
           ++ rewrite parse_UnicodeEscape by exact Hb. reflexivity.
           ++ destruct (is_trail_surrogate d) eqn:Ht.
              ** destruct (surrogate_literal d) as (Hds & Hdc & _);
                   [now rewrite Ht, orb_true_r|].
                 cbn [app].
                 rewrite (@parse_literal_unit c _ Hs Hc), (@parse_literal_unit d _ Hds Hdc).
                 rewrite IH by (simpl in Hlen; lia). reflexivity.
              ** rewrite <- app_assoc, parse_UnicodeEscape, Hr by exact Hb. reflexivity.
        -- destruct (is_trail_surrogate c) eqn:Ht.
           ++ destruct (surrogate_literal c) as (_ & _ & Hb); [now rewrite Ht, orb_true_r|].
              rewrite <- app_assoc, parse_UnicodeEscape, Hr by exact Hb. reflexivity.
           ++ cbn [app]. rewrite (@parse_literal_unit c _ Hs Hc), Hr. reflexivity.
Qed.

Lemma parse_quote_units (s rest : jsstring) :
  parse_string_chars (quote_units s ++ 34%N :: rest) = Some (s, rest).
Proof. apply (parse_quote_units_bounded (n := List.length s)). lia. Qed.

(** ** The text of a value is read back *)

Lemma Json_induction (F : Type) (Q : Json F -> Prop) :
  Q JNull ->
  (forall b, Q (JBool b)) ->
  (forall n, Q (JNum n)) ->
  (forall s, Q (JStr s)) ->
  (forall l, Forall Q l -> Q (JArr l)) ->
  (forall o, Forall (fun p => Q (snd p)) o -> Q (JObj o)) ->
  forall v, Q v.
Proof.
  intros Hnull Hbool Hnum Hstr Harr Hobj.
  exact (fix IH (v : Json F) : Q v :=
           match v with
           | JNull => Hnull
           | JBool b => Hbool b
           | JNum n => Hnum n
           | JStr s => Hstr s
           | JArr l =>
               Harr l ((fix go (l : list (Json F)) : Forall Q l :=
                          match l with
                          | [] => Forall_nil Q
                          | x :: l' => Forall_cons x (IH x) (go l')
                          end) l)
           | JObj o =>
               Hobj o ((fix go (o : list (jsstring * Json F))
                          : Forall (fun p => Q (snd p)) o :=
                          match o with
                          | [] => Forall_nil _
                          | (k, x) :: o' =>
                              @Forall_cons _ (fun p => Q (snd p)) (k, x) o' (IH x) (go o')
                          end) o)
           end).
Qed.

Lemma number_start_dispatch (c : codeunit) :
  is_number_start c = true ->
  (c =? 123)%N = false /\ (c =? 91)%N = false /\ (c =? 34)%N = false /\
  (c =? 116)%N = false /\ (c =? 102)%N = false /\ (c =? 110)%N = false.
Proof.
  unfold is_number_start, is_digit. intros H.
  assert (Hc : (c = 45 \/ 48 <= c <= 57)%N).
  { apply orb_true_iff in H. destruct H as [H|H].
    - left. now apply N.eqb_eq.
    - right. apply andb_true_iff in H. destruct H as [H1 H2].
      apply N.leb_le in H1. apply N.leb_le in H2. lia. }
  repeat split; apply N.eqb_neq; lia.
Qed.

Lemma value_start_not_closing (c : codeunit) :
  is_value_start c = true ->
  is_ws c = false /\ (c =? 93)%N = false /\ (c =? 125)%N = false.
Proof.
  unfold is_value_start, is_number_start, is_digit. intros H.
  assert (Hc : (c = 123 \/ c = 91 \/ c = 34 \/ c = 116 \/ c = 102 \/ c = 110
                \/ c = 45 \/ 48 <= c <= 57)%N).
  { repeat (apply orb_true_iff in H; destruct H as [H|H]);
      try (apply N.eqb_eq in H; lia).
    apply andb_true_iff in H. destruct H as [H1 H2].
    apply N.leb_le in H1. apply N.leb_le in H2. lia. }
  split; [|split; apply N.eqb_neq; lia].
  unfold is_ws.
  destruct c as [|p]; [lia|].
  do 6 (try (destruct p as [p|p|]; try reflexivity)); lia.
Qed.

Lemma skip_ws_value_start (c : codeunit) (r : jsstring) :
  is_value_start c = true -> skip_ws (c :: r) = c :: r.
Proof.
  intros H. destruct (value_start_not_closing c H) as [Hw _].
  cbn [skip_ws]. now rewrite Hw.
Qed.

Lemma delimited_skip_ws (rest : jsstring) (c : codeunit) :
  (c = 44 \/ c = 93 \/ c = 125)%N -> skip_ws (c :: rest) = c :: rest.
Proof. intros [H | [H | H]]; subst c; reflexivity. Qed.

Section JsonRoundTrip.

Context {P : Platform}.

Notation json := (Json fin).
Notation object := (list (jsstring * Json fin)).

Hypothesis lawful : NumberRoundTrip.

Lemma stringify_JArr (l : list json) :
  JSON_stringify (JArr l) = 91%N :: stringify_elements l ++ [93%N].
Proof. reflexivity. Qed.

Lemma stringify_JObj (o : object) :
  JSON_stringify (JObj o) = 123%N :: stringify_members o ++ [125%N].
Proof. reflexivity. Qed.

Lemma read_back_JObj (o : object) : read_back (JObj o) = JObj (read_back_members o).
Proof. reflexivity. Qed.

Lemma number_text_head (x : fin) :
  exists c tl, NumberToString x = c :: tl /\ is_number_start c = true.
Proof. destruct lawful as [_ H]. exact (proj1 (proj2 (H x))). Qed.

Lemma stringify_head (v : json) :
  exists c tl, JSON_stringify v = c :: tl /\ is_value_start c = true.
Proof.
  destruct v as [ |[|]|[x|s|]|s|l|o];
    try (eexists; eexists; split; [reflexivity|reflexivity]).
  destruct (number_text_head x) as (c & tl & Heq & Hc).
  exists c, tl. split; [exact Heq|].
  unfold is_value_start. rewrite Hc. now rewrite !orb_true_r.
Qed.

Lemma stringify_elements_head (x : json) (l : list json) :
  exists c tl, stringify_elements (x :: l) = c :: tl /\ is_value_start c = true.
Proof.
  destruct (stringify_head x) as (c & tl & Heq & Hc).
  destruct l as [|y l].
  - exists c, tl. split; [exact Heq|exact Hc].
  - exists c, (tl ++ 44%N :: stringify_elements (y :: l)).
    split; [|exact Hc].
    change (stringify_elements (x :: y :: l))
      with (JSON_stringify x ++ 44%N :: stringify_elements (y :: l)).
    now rewrite Heq.
Qed.

Lemma stringify_members_head (k : jsstring) (x : json) (o : object) :
  exists tl, stringify_members ((k, x) :: o) = 34%N :: tl.
Proof.
  destruct o as [|[k' y] o]; eexists; reflexivity.
Qed.

Lemma keys_canonical_before (a : list jsstring) (k : jsstring) (b : list jsstring) :
  keys_canonical (a ++ k :: b) = true ->
  forallb (fun k0 => negb (String_eqb k0 k) && key_before k0 k) a = true.
Proof.
  induction a as [|k0 a IH]; intros H; [reflexivity|].
  cbn [app keys_canonical] in H. apply andb_true_iff in H. destruct H as [H1 H2].
  rewrite forallb_app in H1. apply andb_true_iff in H1. destruct H1 as [_ H1].
  cbn [forallb] in H1. apply andb_true_iff in H1. destruct H1 as [H1 _].
  cbn [forallb]. now rewrite H1, IH.
Qed.

Lemma obj_define_last (acc : object) (k : jsstring) (v : json) :
  forallb (fun k0 => negb (String_eqb k0 k) && key_before k0 k) (map fst acc) = true ->
  obj_define acc k v = acc ++ [(k, v)].
Proof.
  intros H. unfold obj_define.
  assert (Hhas : obj_has acc k = false).
  { induction acc as [|[k0 v0] acc IH]; [reflexivity|].
    cbn [map fst forallb] in H. apply andb_true_iff in H. destruct H as [H1 H2].
    apply andb_true_iff in H1. destruct H1 as [H1 _]. apply negb_true_iff in H1.
    cbn [obj_has]. now rewrite H1, IH. }
  rewrite Hhas.
  induction acc as [|[k0 v0] acc IH]; [reflexivity|].
  cbn [map fst forallb] in H. apply andb_true_iff in H. destruct H as [H1 H2].
  apply andb_true_iff in H1. destruct H1 as [_ H1].
  cbn [obj_insert app]. rewrite H1. f_equal. apply IH; [exact H2|].
  cbn [obj_has] in Hhas. apply orb_false_iff in Hhas. tauto.
Qed.

Lemma skip_ws_stringify (x : json) (r : jsstring) :
  skip_ws (JSON_stringify x ++ r) = JSON_stringify x ++ r.
Proof.
  destruct (stringify_head x) as (c & tl & Heq & Hc).
  rewrite Heq. cbn [app]. apply skip_ws_value_start. exact Hc.
Qed.

Lemma skip_ws_elements (x : json) (l : list json) (r : jsstring) :
  skip_ws (stringify_elements (x :: l) ++ r) = stringify_elements (x :: l) ++ r.
Proof.
  destruct (stringify_elements_head x l) as (c & tl & Heq & Hc).
  rewrite Heq. cbn [app]. apply skip_ws_value_start. exact Hc.
Qed.

Lemma parse_elements_stringify (l : list json) :
  Forall reads_back l -> forallb js_value l = true -> l <> [] ->
  forall acc n rest, (cost_elements l <= n)%nat ->
    parse_elements n acc (stringify_elements l ++ 93%N :: rest)
    = Some (JArr (acc ++ map read_back l), rest).
Proof.
  induction l as [|x l IH]; intros HF Hj Hne acc n rest Hn; [congruence|].
  inversion HF as [|? ? Hx HF']; subst.
  cbn [forallb] in Hj.
  apply andb_true_iff in Hj. destruct Hj as [Hjx Hjl].
  change (cost_elements (x :: l)) with (S (cost x + cost_elements l)) in Hn.
  destruct n as [|m]; [lia|].
  destruct l as [|y l'].
  - change (stringify_elements [x]) with (JSON_stringify x).
    cbn [parse_elements].
    rewrite (Hx Hjx m (93%N :: rest)) by (try lia; reflexivity).
    reflexivity.
  - change (stringify_elements (x :: y :: l'))
      with (JSON_stringify x ++ 44%N :: stringify_elements (y :: l')).
    rewrite <- app_assoc. cbn [parse_elements app].
    rewrite (Hx Hjx m) by (try lia; reflexivity).
    cbn [skip_ws is_ws]. change (44 =? 44)%N with true. cbv iota.
    rewrite skip_ws_elements.
    rewrite IH; try assumption; try discriminate; try lia.
    cbn [map]. now rewrite <- app_assoc.
Qed.

Lemma members_text_one (k : jsstring) (x : json) (r : jsstring) :
  stringify_members [(k, x)] ++ r
  = 34%N :: quote_units k ++ 34%N :: 58%N :: JSON_stringify x ++ r.
Proof.
  change (stringify_members [(k, x)])
    with (QuoteJSONString k ++ 58%N :: JSON_stringify x).
  unfold QuoteJSONString. cbn [app]. now repeat (rewrite <- app_assoc; cbn [app]).
Qed.

Lemma members_text_more (k : jsstring) (x : json) (p : jsstring * json)
      (o : object) (r : jsstring) :
  stringify_members ((k, x) :: p :: o) ++ r
  = 34%N :: quote_units k ++ 34%N :: 58%N :: JSON_stringify x
        ++ 44%N :: stringify_members (p :: o) ++ r.
Proof.
  change (stringify_members ((k, x) :: p :: o))
    with (QuoteJSONString k ++ 58%N :: JSON_stringify x
            ++ 44%N :: stringify_members (p :: o)).
  unfold QuoteJSONString. cbn [app]. now repeat (rewrite <- app_assoc; cbn [app]).
Qed.

Lemma parse_members_stringify (o : object) :
  Forall (fun p => reads_back (snd p)) o -> members_ok js_value o = true -> o <> [] ->
  forall acc n rest, keys_canonical (map fst acc ++ map fst o) = true ->
    (cost_members o <= n)%nat ->
    parse_members n acc (stringify_members o ++ 125%N :: rest)
    = Some (JObj (acc ++ read_back_members o), rest).
Proof.
  induction o as [|[k x] o IH]; intros HF Hj Hne acc n rest Hk Hn; [congruence|].
  inversion HF as [|? ? Hx HF']; subst. cbn [snd] in Hx.
  cbn [members_ok] in Hj.
  apply andb_true_iff in Hj. destruct Hj as [Hjx Hjl].
  change (cost_members ((k, x) :: o)) with (S (cost x + cost_members o)) in Hn.
  destruct n as [|m]; [lia|].
  assert (Hdef : obj_define acc k (read_back x) = acc ++ [(k, read_back x)]).
  { apply obj_define_last. cbn [map fst] in Hk.
    now apply keys_canonical_before in Hk. }
  destruct o as [|[k' y] o'].
  - rewrite members_text_one.
    cbn [parse_members]. change (34 =? 34)%N with true. cbv iota.
    rewrite parse_quote_units.
    cbn [skip_ws is_ws]. change (58 =? 58)%N with true. cbv iota.
    rewrite skip_ws_stringify.
    rewrite (Hx Hjx m) by (try lia; reflexivity).
    cbn [skip_ws is_ws]. change (125 =? 44)%N with false.
    change (125 =? 125)%N with true. cbv iota.
    now rewrite Hdef.
  - rewrite members_text_more.
    cbn [parse_members]. change (34 =? 34)%N with true. cbv iota.
    rewrite parse_quote_units.
    cbn [skip_ws is_ws]. change (58 =? 58)%N with true. cbv iota.
    rewrite skip_ws_stringify.
    rewrite (Hx Hjx m) by (try lia; reflexivity).
    cbn [skip_ws is_ws]. change (44 =? 44)%N with true. cbv iota.
    destruct (stringify_members_head k' y o') as (tl' & Heq').
    assert (Hskip : skip_ws (stringify_members ((k', y) :: o') ++ 125%N :: rest)
                    = stringify_members ((k', y) :: o') ++ 125%N :: rest)
      by (rewrite Heq'; reflexivity).
    rewrite Hskip, Hdef.
    rewrite IH; try assumption; try discriminate; try lia.
    + change (read_back_members ((k, x) :: (k', y) :: o'))
        with ((k, read_back x) :: read_back_members ((k', y) :: o')).
      now rewrite <- app_assoc.
    + rewrite map_app. cbn [map fst]. rewrite <- app_assoc. exact Hk.
Qed.

Lemma parse_value_stringify (v : json) : reads_back v.
Proof.
  induction v as [ |b|n|s|l IH|o IH] using Json_induction;
    intros Hj n0 rest Hn Hd.
  - destruct n0 as [|m]; [cbn in Hn; lia|]. reflexivity.
  - destruct n0 as [|m]; [cbn in Hn; lia|]. destruct b; reflexivity.
  - destruct n0 as [|m]; [cbn in Hn; lia|].
    destruct n as [x|s|]; try reflexivity.
    destruct lawful as [_ Hlaw].
    destruct (Hlaw x) as (_ & (c & tl & Heq & Hc) & Hscan).
    cbn [JSON_stringify stringify_number read_back read_back_number].
    specialize (Hscan rest Hd). rewrite Heq in Hscan |- *.
    destruct (number_start_dispatch c Hc) as (H1 & H2 & H3 & H4 & H5 & H6).
    cbn [app parse_value]. rewrite H1, H2, H3, H4, H5, H6, Hc.
    cbn [app] in Hscan. now rewrite Hscan.
  - destruct n0 as [|m]; [cbn in Hn; lia|].
    cbn [JSON_stringify]. unfold QuoteJSONString.
    cbn [app parse_value].
    change (34 =? 123)%N with false. change (34 =? 91)%N with false.
    change (34 =? 34)%N with true. cbv iota.
    rewrite <- app_assoc. cbn [app].
    now rewrite parse_quote_units.
  - destruct n0 as [|m]; [cbn in Hn; lia|].
    rewrite stringify_JArr.
    change (cost (JArr l)) with (S (cost_elements l)) in Hn.
    change (js_value (JArr l)) with (forallb js_value l) in Hj.
    cbn [app parse_value].
    change (91 =? 123)%N with false. change (91 =? 91)%N with true. cbv iota.
    rewrite <- app_assoc. cbn [app].
    destruct l as [|x l'].
    + reflexivity.
    + destruct (stringify_elements_head x l') as (c & tl & Heq & Hc).
      destruct (value_start_not_closing c Hc) as (_ & H93 & _).
      rewrite skip_ws_elements.
      rewrite Heq. cbn [app]. rewrite H93.
      change (c :: tl ++ 93%N :: rest) with ((c :: tl) ++ 93%N :: rest).
      rewrite <- Heq.
      rewrite parse_elements_stringify; try assumption; try discriminate; try lia.
      reflexivity.
  - destruct n0 as [|m]; [cbn in Hn; lia|].
    rewrite stringify_JObj, read_back_JObj.
    change (cost (JObj o)) with (S (cost_members o)) in Hn.
    change (js_value (JObj o))
      with (keys_canonical (map fst o) && members_ok js_value o) in Hj.
    apply andb_true_iff in Hj. destruct Hj as [Hk Hj].
    cbn [app parse_value].
    change (123 =? 123)%N with true. cbv iota.
    rewrite <- app_assoc. cbn [app].
    destruct o as [|[k x] o'].
    + reflexivity.
    + destruct (stringify_members_head k x o') as (tl & Heq).
      rewrite Heq. cbn [app skip_ws is_ws].
      change (34 =? 125)%N with false. cbv iota.
      change (34%N :: tl ++ 125%N :: rest) with ((34%N :: tl) ++ 125%N :: rest).
      rewrite <- Heq.
      rewrite parse_members_stringify; try assumption; try discriminate; try lia.
      reflexivity.
Qed.

Lemma number_text_nonempty (x : fin) : (1 <= List.length (NumberToString x))%nat.
Proof.
  destruct (number_text_head x) as (c & tl & Heq & _).
  rewrite Heq. cbn. lia.
Qed.

Lemma cost_elements_length (l : list json) :
  Forall (fun v => (cost v <= List.length (JSON_stringify v))%nat) l ->
  (cost_elements l <= List.length (stringify_elements l) + 1)%nat.
Proof.
  induction l as [|x l IH]; intros HF; [cbn; lia|].
  inversion HF as [|? ? Hx HF']; subst.
  specialize (IH HF').
  change (cost_elements (x :: l)) with (S (cost x + cost_elements l)).
  destruct l as [|y l'].
  - change (stringify_elements [x]) with (JSON_stringify x). cbn [cost_elements]. lia.
  - change (stringify_elements (x :: y :: l'))
      with (JSON_stringify x ++ 44%N :: stringify_elements (y :: l')).
    rewrite length_app. cbn [List.length]. lia.
Qed.

Lemma cost_members_length (o : object) :
  Forall (fun p => (cost (snd p) <= List.length (JSON_stringify (snd p)))%nat) o ->
  (cost_members o <= List.length (stringify_members o) + 1)%nat.
Proof.
  induction o as [|[k x] o IH]; intros HF; [cbn; lia|].
  inversion HF as [|? ? Hx HF']; subst. cbn [snd] in Hx.
  specialize (IH HF').
  change (cost_members ((k, x) :: o)) with (S (cost x + cost_members o)).
  destruct o as [|p o'].
  - pose proof (f_equal (@List.length _) (members_text_one k x [])) as E.
    rewrite !app_nil_r in E. rewrite E. cbn [List.length cost_members].
    rewrite length_app. cbn [List.length]. lia.
  - pose proof (f_equal (@List.length _) (members_text_more k x p o' [])) as E.
    rewrite !app_nil_r in E. rewrite E. cbn [List.length].
    rewrite length_app. cbn [List.length]. rewrite length_app. cbn [List.length]. lia.
Qed.

Lemma cost_le_length (v : json) : (cost v <= List.length (JSON_stringify v))%nat.
Proof.
  induction v as [ |b|n|s|l IH|o IH] using Json_induction.
  - cbn. lia.
  - destruct b; cbn; lia.
  - destruct n as [x|s|]; try (cbn; lia).
    pose proof (number_text_nonempty x).
    cbn [cost JSON_stringify stringify_number]. lia.
  - cbn [cost JSON_stringify]. unfold QuoteJSONString. cbn [List.length]. lia.
  - rewrite stringify_JArr. change (cost (JArr l)) with (S (cost_elements l)).
    pose proof (cost_elements_length IH).
    cbn [List.length]. rewrite length_app. cbn [List.length]. lia.
  - rewrite stringify_JObj. change (cost (JObj o)) with (S (cost_members o)).
    pose proof (cost_members_length IH).
    cbn [List.length]. rewrite length_app. cbn [List.length]. lia.
Qed.

(** [JSON.parse(JSON.stringify(v))] is [read_back v]. *)
Lemma JSON_parse_stringify (v : json) :
  js_value v = true -> JSON_parse (JSON_stringify v) = Some (read_back v).
Proof.
  intros Hj. unfold JSON_parse.
  pose proof (skip_ws_stringify v []) as Hs. rewrite app_nil_r in Hs.
  rewrite Hs.
  pose proof (@parse_value_stringify v Hj (S (List.length (JSON_stringify v))) []) as H.
  rewrite app_nil_r in H. rewrite H; [reflexivity| |reflexivity].
  pose proof (cost_le_length v). lia.
Qed.



End JsonRoundTrip.

(** ** What [JSON.parse] returns is a JavaScript value *)

Lemma String_eqb_sym (a b : jsstring) : String_eqb a b = String_eqb b a.
Proof.
  destruct (String_eqb a b) eqn:E.
  - apply String_eqb_eq in E. subst. symmetry. apply String_eqb_refl.
  - symmetry. apply String_eqb_neq. apply String_eqb_neq in E. congruence.
Qed.

Lemma is_digit_digit_of (c : codeunit) :
  is_digit c = true -> exists d, digit_of c = Some d /\ digits_of_uint (d Decimal.Nil) = [c]
                                 /\ (forall u, digits_of_uint (d u) = c :: digits_of_uint u)
                                 /\ ((c =? 48)%N = false -> forall u, Decimal.unorm (d u) = d u).
Proof.
  unfold is_digit. intros H. apply andb_true_iff in H. destruct H as [H1 H2].
  apply N.leb_le in H1. apply N.leb_le in H2.
  assert (Hc : (c = 48 \/ c = 49 \/ c = 50 \/ c = 51 \/ c = 52 \/ c = 53 \/ c = 54
                \/ c = 55 \/ c = 56 \/ c = 57)%N) by lia.
  repeat (destruct Hc as [Hc|Hc]); subst c;
    eexists; (split; [reflexivity|]); (split; [reflexivity|]);
    (split; [reflexivity|]); intros E; try discriminate; reflexivity.
Qed.

Lemma scan_uint_all_digits (k : jsstring) :
  forallb is_digit k = true ->
  exists u, scan_uint k = (u, []) /\ digits_of_uint u = k.
Proof.
  induction k as [|c k IH]; intros H; [exists Decimal.Nil; split; reflexivity|].
  cbn [forallb] in H. apply andb_true_iff in H. destruct H as [Hc Hk].
  destruct (IH Hk) as (u & Hu & Hd).
  destruct (is_digit_digit_of c Hc) as (d & Hdo & _ & Hdd & _).
  exists (d u). cbn [scan_uint]. rewrite Hdo, Hu. split; [reflexivity|].
  now rewrite Hdd, Hd.
Qed.

Lemma array_index_digits (k : jsstring) (i : N) :
  array_index k = Some i ->
  exists u, digits_of_uint u = k /\ Decimal.unorm u = u /\ N.of_uint u = i.
Proof.
  unfold array_index. destruct k as [|c r]; [discriminate|].
  destruct (forallb is_digit (c :: r)) eqn:Hd; [|discriminate].
  destruct (scan_uint_all_digits _ Hd) as (u & Hu & Hk).
  destruct (N.eqb_spec c 48) as [->|Hc].
  - destruct r; [|discriminate]. intros H. injection H as <-.
    exists (Decimal.D0 Decimal.Nil). repeat split; reflexivity.
  - unfold scan_digits. rewrite Hu. cbn [fst].
    destruct (N.of_uint u <? 4294967295)%N; [|discriminate].
    intros H. injection H as <-. exists u. split; [exact Hk|]. split; [|reflexivity].
    cbn [forallb] in Hd. apply andb_true_iff in Hd. destruct Hd as [Hdc _].
    destruct (is_digit_digit_of c Hdc) as (d & Hdo & _ & Hdd & Hun).
    cbn [scan_uint] in Hu. rewrite Hdo in Hu.
    destruct (scan_uint r) as [u' rest]. injection Hu as <- _.
    apply Hun. now apply N.eqb_neq.
Qed.

Lemma array_index_inj (a b : jsstring) (i : N) :
  array_index a = Some i -> array_index b = Some i -> a = b.
Proof.
  intros Ha Hb.
  destruct (@array_index_digits _ _ Ha) as (u & Hu & Hnu & Hiu).
  destruct (@array_index_digits _ _ Hb) as (v & Hv & Hnv & Hiv).
  assert (E : Decimal.unorm u = Decimal.unorm v)
    by (apply DecimalN.Unsigned.of_inj; congruence).
  rewrite Hnu, Hnv in E. subst v. congruence.
Qed.

Lemma key_before_trans (a b c : jsstring) :
  key_before a b = true -> key_before b c = true -> key_before a c = true.
Proof.
  unfold key_before.
  destruct (array_index a) as [i|], (array_index b) as [j|], (array_index c) as [l|];
    try discriminate; try reflexivity.
  intros H1 H2. apply N.ltb_lt in H1. apply N.ltb_lt in H2. apply N.ltb_lt. lia.
Qed.

Lemma key_before_total (a b : jsstring) :
  a <> b -> key_before a b = false -> key_before b a = true.
Proof.
  unfold key_before. intros Hne.
  destruct (array_index a) as [i|] eqn:Ea, (array_index b) as [j|] eqn:Eb;
    try discriminate; try reflexivity.
  intros H. apply N.ltb_ge in H. apply N.ltb_lt.
  destruct (N.eq_dec i j) as [->|Hij]; [|lia].
  exfalso. apply Hne. eapply array_index_inj; eassumption.
Qed.

Section Canonical.

Context {P : Platform}.

Notation json := (Json fin).
Notation object := (list (jsstring * Json fin)).

Lemma obj_replace_keys (o : object) (k : jsstring) (v : json) :
  map fst (obj_replace o k v) = map fst o.
Proof.
  induction o as [|[k' v'] o IH]; [reflexivity|].
  cbn [obj_replace]. destruct (String_eqb k' k); cbn [map fst]; [reflexivity|].
  now rewrite IH.
Qed.

Lemma obj_insert_forallb (Q : jsstring -> bool) (o : object) (k : jsstring) (v : json) :
  forallb Q (map fst (obj_insert o k v)) = Q k && forallb Q (map fst o).
Proof.
  induction o as [|[k' v'] o IH]; cbn [obj_insert map fst forallb]; [reflexivity|].
  destruct (key_before k' k); cbn [map fst forallb]; [|reflexivity].
  rewrite IH. destruct (Q k'), (Q k); reflexivity.
Qed.

Lemma obj_insert_canonical (o : object) (k : jsstring) (v : json) :
  keys_canonical (map fst o) = true -> obj_has o k = false ->
  keys_canonical (map fst (obj_insert o k v)) = true.
Proof.
  induction o as [|[k' v'] o IH]; intros Hc Hh; [reflexivity|].
  cbn [map fst keys_canonical] in Hc. apply andb_true_iff in Hc. destruct Hc as [Hk' Hc].
  cbn [obj_has] in Hh. apply orb_false_iff in Hh. destruct Hh as [Hne Hh].
  cbn [obj_insert]. destruct (key_before k' k) eqn:Ekb.
  - cbn [map fst keys_canonical]. rewrite obj_insert_forallb, Hk', Hne, Ekb.
    cbn [negb andb]. now apply IH.
  - assert (Hkk' : k <> k').
    { intros ->. rewrite String_eqb_refl in Hne. discriminate. }
    assert (Hbefore : key_before k k' = true) by (apply key_before_total; congruence).
    cbn [map fst keys_canonical forallb].
    rewrite String_eqb_sym, Hne, Hbefore, Hk', Hc. cbn [negb andb].
    rewrite andb_true_r.
    rewrite forallb_forall in Hk' |- *. intros k'' Hin.
    specialize (Hk' k'' Hin). apply andb_true_iff in Hk'. destruct Hk' as [_ Hb].
    rewrite (key_before_trans _ _ _ Hbefore Hb), andb_true_r.
    apply negb_true_iff.
    clear - Hh Hin. induction o as [|[k0 v0] o IHo]; [contradiction|].
    cbn [obj_has] in Hh. apply orb_false_iff in Hh. destruct Hh as [H0 Hh].
    destruct Hin as [<-|Hin]; [now rewrite String_eqb_sym|now apply IHo].
Qed.

Lemma obj_define_canonical (o : object) (k : jsstring) (v : json) :
  keys_canonical (map fst o) = true ->
  keys_canonical (map fst (obj_define o k v)) = true.
Proof.
  intros Hc. unfold obj_define. destruct (obj_has o k) eqn:Hh.
  - now rewrite obj_replace_keys.
  - now apply obj_insert_canonical.
Qed.

Lemma obj_define_members (o : object) (k : jsstring) (v : json) :
  members_ok js_value o = true -> js_value v = true ->
  members_ok js_value (obj_define o k v) = true.
Proof.
  intros Ho Hv. unfold obj_define. destruct (obj_has o k).
  - induction o as [|[k' v'] o IH]; [reflexivity|].
    cbn [members_ok] in Ho. apply andb_true_iff in Ho. destruct Ho as [H1 H2].
    cbn [obj_replace]. destruct (String_eqb k' k); cbn [members_ok].
    + now rewrite Hv, H2.
    + now rewrite H1, IH.
  - induction o as [|[k' v'] o IH]; [cbn; now rewrite Hv|].
    cbn [members_ok] in Ho. apply andb_true_iff in Ho. destruct Ho as [H1 H2].
    cbn [obj_insert]. destruct (key_before k' k); cbn [members_ok].
    + now rewrite H1, IH.
    + now rewrite Hv, H1, H2.
Qed.

Lemma js_value_JObj (o : object) :
  js_value (JObj o) = keys_canonical (map fst o) && members_ok js_value o.
Proof. reflexivity. Qed.

Lemma parse_js_value (n : nat) :
  (forall s v r, parse_value n s = Some (v, r) -> js_value v = true)
  /\ (forall acc s v r, forallb js_value acc = true ->
        parse_elements n acc s = Some (v, r) -> js_value v = true)
  /\ (forall acc s v r, js_value (JObj acc) = true ->
        parse_members n acc s = Some (v, r) -> js_value v = true).
Proof.
  induction n as [|n (IHv & IHe & IHm)]; [repeat split; intros; discriminate|].
  repeat split.
  - intros s v r H. cbn [parse_value] in H.
    destruct s as [|c s']; [discriminate|].
    destruct (c =? 123)%N.
    { destruct (skip_ws s') as [|c' r']; [discriminate|].
      destruct (c' =? 125)%N; [now injection H as <- _|].
      eapply IHm; [|exact H]. reflexivity. }
    destruct (c =? 91)%N.
    { destruct (skip_ws s') as [|c' r']; [discriminate|].
      destruct (c' =? 93)%N; [now injection H as <- _|].
      eapply IHe; [|exact H]. reflexivity. }
    destruct (c =? 34)%N.
    { destruct (parse_string_chars s') as [[t rest]|]; [|discriminate].
      now injection H as <- _. }
    destruct (c =? 116)%N.
    { destruct (strip_prefix _ _); [|discriminate]. now injection H as <- _. }
    destruct (c =? 102)%N.
    { destruct (strip_prefix _ _); [|discriminate]. now injection H as <- _. }
    destruct (c =? 110)%N.
    { destruct (strip_prefix _ _); [|discriminate]. now injection H as <- _. }
    destruct (is_number_start c); [|discriminate].
    destruct (scanNumber (c :: s')) as [[x rest]|]; [|discriminate].
    now injection H as <- _.
  - intros acc s v r Hacc H. cbn [parse_elements] in H.
    destruct (parse_value n s) as [[x r1]|] eqn:Ex; [|discriminate].
    apply IHv in Ex.
    assert (Hacc' : forallb js_value (acc ++ [x]) = true).
    { rewrite forallb_app, Hacc. cbn. now rewrite Ex. }
    destruct (skip_ws r1) as [|c r']; [discriminate|].
    destruct (c =? 44)%N; [eapply IHe; eassumption|].
    destruct (c =? 93)%N; [|discriminate].
    injection H as <- _. exact Hacc'.
  - intros acc s v r Hacc H. cbn [parse_members] in H.
    destruct s as [|c s']; [discriminate|].
    destruct (c =? 34)%N; [|discriminate].
    destruct (parse_string_chars s') as [[k r1]|]; [|discriminate].
    destruct (skip_ws r1) as [|c1 r2]; [discriminate|].
    destruct (c1 =? 58)%N; [|discriminate].
    destruct (parse_value n (skip_ws r2)) as [[x r3]|] eqn:Ex; [|discriminate].
    apply IHv in Ex.
    assert (Hacc' : js_value (JObj (obj_define acc k x)) = true).
    { rewrite js_value_JObj in Hacc |- *.
      apply andb_true_iff in Hacc. destruct Hacc as [H1 H2].
      now rewrite obj_define_canonical, obj_define_members. }
    destruct (skip_ws r3) as [|c3 r4]; [discriminate|].
    destruct (c3 =? 44)%N; [eapply IHm; eassumption|].
    destruct (c3 =? 125)%N; [|discriminate].
    injection H as <- _. exact Hacc'.
Qed.

Lemma JSON_parse_js_value (text : jsstring) (v : json) :
  JSON_parse text = Some v -> js_value v = true.
Proof.
  unfold JSON_parse.
  destruct (parse_value _ _) as [[x r]|] eqn:E; [|discriminate].
  destruct (skip_ws r); [|discriminate].
  intros H. injection H as <-.
  eapply (proj1 (parse_js_value _)). exact E.
Qed.

End Canonical.

(** ** The integral numbers satisfy the law *)

Lemma scan_uint_digits (d : Decimal.uint) (rest : jsstring) :
  delimited rest = true -> scan_uint (digits_of_uint d ++ rest) = (d, rest).
Proof.
  intros Hd.
  induction d as [|d IH|d IH|d IH|d IH|d IH|d IH|d IH|d IH|d IH|d IH];
    cbn [digits_of_uint app scan_uint digit_of]; try (now rewrite IH).
  destruct rest as [|c r]; [reflexivity|].
  cbn [delimited] in Hd.
  assert (Hc : (c = 44 \/ c = 93 \/ c = 125)%N).
  { repeat (apply orb_true_iff in Hd; destruct Hd as [Hd|Hd]);
      apply N.eqb_eq in Hd; lia. }
  destruct Hc as [H | [H | H]]; subst c; reflexivity.
Qed.

Lemma to_uint_no_leading_zero (p : positive) (u : Decimal.uint) :
  N.to_uint (Npos p) <> Decimal.D0 u.
Proof.
  intros E.
  pose proof (DecimalN.Unsigned.to_of (N.to_uint (Npos p))) as H.
  rewrite DecimalN.Unsigned.of_to, E in H.
  rewrite DecimalFacts.unorm_D0 in H.
  unfold Decimal.unorm in H.
  destruct (Decimal.nzhead u) as [|u0|u0|u0|u0|u0|u0|u0|u0|u0|u0] eqn:Hz;
    try discriminate H.
  - cbn [N.to_uint] in E.
    apply (DecimalPos.Unsigned.to_uint_nonzero p). now rewrite E, H.
  - pose proof (DecimalFacts.nb_digits_nzhead u) as Hn. rewrite Hz in Hn.
    injection H as H. rewrite <- H in Hn. cbn in Hn. lia.
Qed.

Lemma int_magnitude_scan (p : positive) (rest : jsstring) :
  delimited rest = true ->
  exists c tl, digits_of_uint (N.to_uint (Npos p)) = c :: tl
               /\ is_digit c = true /\ (c =? 48)%N = false
               /\ scan_int_magnitude (digits_of_uint (N.to_uint (Npos p)) ++ rest)
                  = Some (Npos p, rest).
Proof.
  intros Hd.
  pose proof (@to_uint_no_leading_zero p) as Hz.
  pose proof (scan_uint_digits (N.to_uint (Npos p)) rest Hd) as Hs.
  pose proof (DecimalN.Unsigned.of_to (Npos p)) as Hof.
  pose proof (DecimalPos.Unsigned.to_uint_nonnil p) as Hnil.
  change (Pos.to_uint p) with (N.to_uint (Npos p)) in Hnil.
  destruct (N.to_uint (Npos p)) as [|d|d|d|d|d|d|d|d|d|d] eqn:E;
    try congruence; try (exfalso; eapply Hz; reflexivity);
    (eexists; eexists; split; [reflexivity|]; split; [reflexivity|];
     split; [reflexivity|];
     cbn [digits_of_uint app scan_int_magnitude];
     match goal with
     | |- context [(?c =? 48)%N] => change (c =? 48)%N with false
     end;
     match goal with
     | |- context [is_digit ?c] => change (is_digit c) with true
     end;
     cbv iota; unfold scan_digits;
     cbn [digits_of_uint app] in Hs; rewrite Hs, Hof; reflexivity).
Qed.

Lemma IntPlatform_lawful : @NumberRoundTrip IntPlatform.
Proof.
  split; [reflexivity|].
  intros [neg n].
  split; [|split].
  - cbn. intros H. apply andb_true_iff in H. tauto.
  - destruct n as [|p].
    + exists 48%N, []. split; reflexivity.
    + destruct (int_magnitude_scan p [] eq_refl) as (c & tl & Heq & Hc & _).
      cbn [NumberToString IntPlatform int_to_string]. cbn [N.eqb].
      destruct neg.
      * exists 45%N, (digits_of_uint (N.to_uint (Npos p))). split; reflexivity.
      * exists c, tl. split; [cbn [app]; exact Heq|].
        unfold is_number_start. now rewrite Hc, orb_true_r.
  - intros rest Hd. destruct n as [|p].
    + destruct neg; reflexivity.
    + destruct (int_magnitude_scan p rest Hd) as (c & tl & Heq & Hc & H48 & Hs).
      cbn [NumberToString scanNumber fin_negzero fin_positive_zero IntPlatform
           int_to_string fst snd].
      cbn [N.eqb]. rewrite andb_false_r.
      destruct neg.
      * cbn [js map list_ascii_of_string app int_scan].
        change (ch "-" =? 45)%N with true. cbv iota.
        now rewrite Hs.
      * cbn [app]. unfold int_scan.
        rewrite Heq in Hs |- *. cbn [app] in Hs |- *.
        assert (H45 : (c =? 45)%N = false).
        { unfold is_digit in Hc. apply andb_true_iff in Hc. destruct Hc as [H1 H2].
          apply N.leb_le in H1. apply N.eqb_neq. lia. }
        now rewrite H45, Hs.
Qed.

(** ** The order of a query *)

Lemma field_compare_antisym (f : SortField) (a b : Row) :
  field_compare f b a = CompOpp (field_compare f a b).
Proof.
  destruct f; unfold field_compare.
  - destruct (isDefault (scalars a)), (isDefault (scalars b)); reflexivity.
  - apply Z.compare_antisym.
  - apply Z.compare_antisym.
Qed.

Lemma Z_compare_trans (x : comparison) (a b c : Z) :
  Z.compare a b = x -> Z.compare b c = x -> Z.compare a c = x.
Proof.
  destruct (Z.compare_spec a b), (Z.compare_spec b c), (Z.compare_spec a c);
    intros; subst; try congruence; lia.
Qed.

Lemma Z_compare_eq_l (a b c : Z) :
  Z.compare a b = Eq -> Z.compare a c = Z.compare b c.
Proof. intros H. apply Z.compare_eq in H. now subst. Qed.

Lemma Z_compare_eq_r (a b c : Z) :
  Z.compare b c = Eq -> Z.compare a c = Z.compare a b.
Proof. intros H. apply Z.compare_eq in H. now subst. Qed.

Lemma field_compare_trans (f : SortField) (x : comparison) (a b c : Row) :
  field_compare f a b = x -> field_compare f b c = x -> field_compare f a c = x.
Proof.
  destruct f; unfold field_compare; try apply Z_compare_trans.
  destruct (isDefault (scalars a)), (isDefault (scalars b)), (isDefault (scalars c));
    cbn; congruence.
Qed.

Lemma field_compare_eq_l (f : SortField) (a b c : Row) :
  field_compare f a b = Eq -> field_compare f a c = field_compare f b c.
Proof.
  destruct f; unfold field_compare; try apply Z_compare_eq_l.
  destruct (isDefault (scalars a)), (isDefault (scalars b)), (isDefault (scalars c));
    cbn; congruence.
Qed.

Lemma field_compare_eq_r (f : SortField) (a b c : Row) :
  field_compare f b c = Eq -> field_compare f a c = field_compare f a b.
Proof.
  destruct f; unfold field_compare; try apply Z_compare_eq_r.
  destruct (isDefault (scalars a)), (isDefault (scalars b)), (isDefault (scalars c));
    cbn; congruence.
Qed.

Lemma directed_compare_antisym (f : SortField) (o : SortOrder) (a b : Row) :
  directed_compare f o b a = CompOpp (directed_compare f o a b).
Proof. destruct o; apply field_compare_antisym. Qed.

Lemma directed_compare_trans (f : SortField) (o : SortOrder) (x : comparison) (a b c : Row) :
  directed_compare f o a b = x -> directed_compare f o b c = x ->
  directed_compare f o a c = x.
Proof.
  destruct o; cbn; intros H1 H2.
  - eapply field_compare_trans; eassumption.
  - eapply field_compare_trans; eassumption.
Qed.

Lemma directed_compare_eq_l (f : SortField) (o : SortOrder) (a b c : Row) :
  directed_compare f o a b = Eq -> directed_compare f o a c = directed_compare f o b c.
Proof.
  destruct o; cbn; intros H.
  - now apply field_compare_eq_l.
  - now apply field_compare_eq_r.
Qed.

Lemma directed_compare_eq_r (f : SortField) (o : SortOrder) (a b c : Row) :
  directed_compare f o b c = Eq -> directed_compare f o a c = directed_compare f o a b.
Proof.
  destruct o; cbn; intros H.
  - now apply field_compare_eq_r.
  - now apply field_compare_eq_l.
Qed.

Lemma order_compare_antisym (ob : OrderBy) (a b : Row) :
  order_compare ob b a = CompOpp (order_compare ob a b).
Proof.
  induction ob as [|[f o] ob IH]; cbn [order_compare]; [reflexivity|].
  rewrite (directed_compare_antisym f o a b), IH.
  now destruct (directed_compare f o a b).
Qed.

Lemma order_compare_eq_l (ob : OrderBy) (a b c : Row) :
  order_compare ob a b = Eq -> order_compare ob a c = order_compare ob b c.
Proof.
  induction ob as [|[f o] ob IH]; cbn [order_compare]; [reflexivity|].
  destruct (directed_compare f o a b) eqn:E; try discriminate.
  intros H. rewrite (directed_compare_eq_l f o a b c E), (IH H). reflexivity.
Qed.

Lemma order_compare_eq_r (ob : OrderBy) (a b c : Row) :
  order_compare ob b c = Eq -> order_compare ob a c = order_compare ob a b.
Proof.
  induction ob as [|[f o] ob IH]; cbn [order_compare]; [reflexivity|].
  destruct (directed_compare f o b c) eqn:E; try discriminate.
  intros H. rewrite (directed_compare_eq_r f o a b c E), (IH H). reflexivity.
Qed.

Lemma order_compare_Lt_trans (ob : OrderBy) (a b c : Row) :
  order_compare ob a b = Lt -> order_compare ob b c = Lt -> order_compare ob a c = Lt.
Proof.
  induction ob as [|[f o] ob IH]; cbn [order_compare]; [discriminate|].
  destruct (directed_compare f o a b) eqn:E1; try discriminate;
    destruct (directed_compare f o b c) eqn:E2; try discriminate; intros H1 H2.
  - rewrite (directed_compare_eq_l f o a b c E1), E2. now apply IH.
  - now rewrite (directed_compare_eq_l f o a b c E1), E2.
  - now rewrite (directed_compare_eq_r f o a b c E2), E1.
  - now rewrite (directed_compare_trans f o a b c E1 E2).
Qed.

Lemma order_leb_total (ob : OrderBy) (a b : Row) :
  order_leb ob a b = false -> order_leb ob b a = true.
Proof.
  unfold order_leb. rewrite (order_compare_antisym ob a b).
  now destruct (order_compare ob a b).
Qed.

Lemma order_leb_trans (ob : OrderBy) (a b c : Row) :
  order_leb ob a b = true -> order_leb ob b c = true -> order_leb ob a c = true.
Proof.
  unfold order_leb.
  destruct (order_compare ob a b) eqn:E1; try discriminate;
    destruct (order_compare ob b c) eqn:E2; try discriminate; intros _ _.
  - now rewrite (order_compare_eq_l ob a b c E1), E2.
  - now rewrite (order_compare_eq_l ob a b c E1), E2.
  - now rewrite (order_compare_eq_r ob a b c E2), E1.
  - now rewrite (order_compare_Lt_trans ob a b c E1 E2).
Qed.

Lemma insert_row_perm (ob : OrderBy) (x : Row) (l : list Row) :
  Permutation (insert_row ob x l) (x :: l).
Proof.
  induction l as [|y l IH]; cbn [insert_row]; [reflexivity|].
  destruct (order_leb ob x y); [reflexivity|].
  rewrite IH. apply perm_swap.
Qed.

Lemma sort_rows_perm (ob : OrderBy) (l : list Row) : Permutation (sort_rows ob l) l.
Proof.
  induction l as [|x l IH]; cbn [sort_rows]; [reflexivity|].
  rewrite insert_row_perm. now constructor.
Qed.

Lemma insert_row_sorted (ob : OrderBy) (x : Row) (l : list Row) :
  StronglySorted (fun a b => order_leb ob a b = true) l ->
  StronglySorted (fun a b => order_leb ob a b = true) (insert_row ob x l).
Proof.
  induction l as [|y l IH]; intros Hs; cbn [insert_row].
  - repeat constructor.
  - inversion Hs as [|? ? Hl Hy]; subst.
    destruct (order_leb ob x y) eqn:E.
    + constructor; [exact Hs|]. constructor; [exact E|].
      rewrite Forall_forall in Hy |- *. intros z Hz.
      eapply order_leb_trans; [exact E|now apply Hy].
    + constructor; [now apply IH|].
      rewrite Forall_forall in Hy |- *. intros z Hz.
      apply (Permutation_in _ (insert_row_perm ob x l)) in Hz.
      destruct Hz as [<-|Hz]; [now apply order_leb_total|now apply Hy].
Qed.

Lemma sort_rows_sorted (ob : OrderBy) (l : list Row) :
  StronglySorted (fun a b => order_leb ob a b = true) (sort_rows ob l).
Proof.
  induction l as [|x l IH]; cbn [sort_rows]; [constructor|].
  now apply insert_row_sorted.
Qed.

Lemma Bool_compare_Eq (a b : bool) : Bool.compare a b = Eq -> a = b.
Proof. destruct a, b; cbn; congruence. Qed.

Lemma presetOrder_listed_before (a b : Row) :
  order_leb presetOrder a b = true -> listed_before (scalars a) (scalars b).
Proof.
  unfold order_leb, presetOrder, listed_before.
  cbn [order_compare directed_compare field_compare].
  destruct (Bool.compare (isDefault (scalars b)) (isDefault (scalars a))) eqn:E1;
    try discriminate.
  - apply Bool_compare_Eq in E1.
    destruct (Z.compare_spec (usageCount (scalars b)) (usageCount (scalars a)));
      try discriminate.
    + destruct (Z.compare_spec (createdAt (scalars b)) (createdAt (scalars a))) as [E|E|E];
        try discriminate; intros _; right; (split; [congruence|]);
        right; split; try congruence; lia.
    + intros _. right. split; [congruence|]. now left.
  - intros _. left.
    destruct (isDefault (scalars a)), (isDefault (scalars b)); cbn in E1;
      try discriminate; now split.
Qed.

(** ** Lists *)

Lemma map_option_Forall2 (A B : Type) (f : A -> option B) (l : list A) (l' : list B) :
  map_option f l = Some l' -> Forall2 (fun x y => f x = Some y) l l'.
Proof.
  revert l'. induction l as [|x l IH]; intros l' H; cbn [map_option] in H.
  - injection H as <-. constructor.
  - destruct (f x) as [y|] eqn:E; [|discriminate].
    destruct (map_option f l) as [ys|]; [|discriminate].
    injection H as <-. constructor; [exact E|now apply IH].
Qed.

Lemma Forall2_map_left (A B C : Type) (g : A -> B) (R : B -> C -> Prop)
      (l : list A) (l' : list C) :
  Forall2 R (map g l) l' -> Forall2 (fun x y => R (g x) y) l l'.
Proof.
  revert l'. induction l as [|x l IH]; intros l' H; inversion H; subst;
    constructor; auto.
Qed.

Lemma Forall2_Forall_right (A B : Type) (Q : A -> B -> Prop) (S : A -> Prop)
      (T : B -> Prop) (l : list A) (l' : list B) :
  (forall a b, Q a b -> S a -> T b) ->
  Forall2 Q l l' -> Forall S l -> Forall T l'.
Proof.
  intros HQ H. induction H as [|a b l l' Hab H IH]; intros HS; [constructor|].
  inversion HS; subst. constructor; [eapply HQ; eassumption|now apply IH].
Qed.

Lemma StronglySorted_Forall2 (A B : Type) (R : A -> A -> Prop) (R' : B -> B -> Prop)
      (Q : A -> B -> Prop) (l : list A) (l' : list B) :
  (forall a b a' b', Q a a' -> Q b b' -> R a b -> R' a' b') ->
  Forall2 Q l l' -> StronglySorted R l -> StronglySorted R' l'.
Proof.
  intros HQ H. induction H as [|a a' l l' Ha H IH]; intros Hs; [constructor|].
  inversion Hs as [|? ? Hl Hall]; subst.
  constructor; [now apply IH|].
  eapply Forall2_Forall_right; [|exact H|exact Hall].
  intros b b' Hb Hr. eapply HQ; eassumption.
Qed.

(** ** GET *)

Section ListFacts.

Context {P : Platform}.

Notation json := (Json fin).

Lemma lacks_identity_None (ctx : option TenantContext) :
  lacks_identity ctx -> identity ctx = None.
Proof.
  destruct ctx as [[u t]|]; cbn; [|reflexivity].
  intros [H|H]; subst; [reflexivity|].
  destruct u as [[|u0 u]|]; reflexivity.
Qed.

Lemma GET_no_identity (ctx : option TenantContext) (req : NextRequest) (w : World) :
  identity ctx = None -> GET ctx req w = (Normal Unauthorized, w).
Proof.
  destruct ctx as [[[[|u0 u]|] [[|t0 t]|]]|]; cbn [identity]; intros H;
    try discriminate; reflexivity.
Qed.

Lemma GET_identity (ctx : option TenantContext) (req : NextRequest) (w : World)
      (u t : jsstring) :
  identity ctx = Some (u, t) ->
  GET ctx req w =
  let q := QFindMany (list_query u t (searchParams req)) presetOrder in
  match map_option parse_listed
                   (map (select_listed (users w)) (list_rows u t (searchParams req) w)) with
  | Some items => (Normal (Ok items), add_query q w)
  | None => (Normal (ServerError (js "Failed to fetch presets")),
             add_console (js "Failed to fetch filter presets:") (add_query q w))
  end.
Proof.
  destruct ctx as [[[[|u0 u1]|] [[|t0 t1]|]]|]; cbn [identity]; intros H;
    try discriminate.
  injection H as <- <-.
  cbv beta iota zeta delta [GET try_catch bind prisma_findMany record_query of_option
                             ret throw console_error list_rows list_query].
  cbn [users presets add_query].
  destruct (map_option parse_listed _); reflexivity.
Qed.

Lemma whereClause_visible (tenant user entity : jsstring) (p s : bool) (r : Row) :
  where_matches (whereClause tenant user entity p s) r = visible tenant user entity p s r.
Proof.
  unfold whereClause, visible, where_matches, clause_matches, opt_test.
  destruct p, s; cbn;
    destruct (String_eqb (tenantId r) tenant), (String_eqb (entityType (scalars r)) entity),
      (isPublic (scalars r)), (String_eqb (createdBy r) user); reflexivity.
Qed.

Lemma shows_scalars (us : list Creator) (r : Row) (it : Listed json) :
  shows us r it ->
  listed it = with_filterConfig (scalars r) (filterConfig (listed it))
  /\ JSON_parse (filterConfig (scalars r)) = Some (filterConfig (listed it)).
Proof.
  unfold shows, parse_listed, select_listed. cbn [listed listed_creator].
  destruct (JSON_parse (filterConfig (scalars r))) as [v|]; [|discriminate].
  intros H. injection H as <-. cbn. split; reflexivity.
Qed.

Lemma GET_Ok_shows (ctx : option TenantContext) (req : NextRequest) (w w' : World)
      (items : list (Listed json)) :
  GET ctx req w = (Normal (Ok items), w') ->
  exists u t, identity ctx = Some (u, t)
              /\ Forall2 (shows (users w)) (list_rows u t (searchParams req) w) items.
Proof.
  intros H. destruct (identity ctx) as [[u t]|] eqn:E.
  - exists u, t. split; [reflexivity|].
    rewrite (GET_identity _ req w E) in H. cbn zeta in H.
    destruct (map_option parse_listed _) as [its|] eqn:Em; [|discriminate].
    injection H as <- _.
    apply (@Forall2_map_left _ _ _ (select_listed (users w))
                             (fun x y => parse_listed x = Some y)).
    now apply map_option_Forall2.
  - rewrite (GET_no_identity _ req w E) in H. discriminate.
Qed.

Lemma list_rows_matched (u t : jsstring) (ps : list (jsstring * jsstring)) (w : World)
      (r : Row) :
  In r (list_rows u t ps w) <->
  In r (presets w) /\ where_matches (list_query u t ps) r = true.
Proof.
  unfold list_rows. rewrite <- filter_In. split; intros H.
  - eapply Permutation_in; [apply sort_rows_perm|exact H].
  - eapply Permutation_in; [apply Permutation_sym, sort_rows_perm|exact H].
Qed.

End ListFacts.

(** ** POST *)

Section CreateFacts.

Context {P : Platform}.

Notation json := (Json fin).

Lemma POST_no_identity (g : Generated) (ctx : option TenantContext) (req : NextRequest)
      (w : World) :
  identity ctx = None -> POST g ctx req w = (Normal Unauthorized, w).
Proof.
  destruct ctx as [[[[|u0 u]|] [[|t0 t]|]]|]; cbn [identity]; intros H;
    try discriminate; reflexivity.
Qed.

Lemma POST_no_json (g : Generated) (ctx : option TenantContext) (req : NextRequest)
      (w : World) (u t : jsstring) :
  identity ctx = Some (u, t) -> request_json req = None ->
  POST g ctx req w = failed_create w.
Proof.
  destruct ctx as [[[[|u0 u1]|] [[|t0 t1]|]]|]; cbn [identity]; intros H Hj;
    try discriminate.
  cbv beta iota zeta delta [POST try_catch bind of_option ret throw console_error].
  now rewrite Hj.
Qed.

Lemma POST_null (g : Generated) (ctx : option TenantContext) (req : NextRequest)
      (w : World) (u t : jsstring) :
  identity ctx = Some (u, t) -> request_json req = Some JNull ->
  POST g ctx req w = failed_create w.
Proof.
  destruct ctx as [[[[|u0 u1]|] [[|t0 t1]|]]|]; cbn [identity]; intros H Hj;
    try discriminate.
  cbv beta iota zeta delta [POST try_catch bind of_option ret throw console_error].
  now rewrite Hj.
Qed.

(** The steps of [POST] on a payload, with the monad unfolded. *)
Lemma POST_steps (g : Generated) (ctx : option TenantContext) (req : NextRequest)
      (w : World) (u t : jsstring) (body : json) :
  identity ctx = Some (u, t) -> request_json req = Some body -> body <> JNull ->
  POST g ctx req w =
  match get_prop body (js "name"), get_prop body (js "filterConfig") with
  | Some nm, Some fc =>
      if json_truthy nm && json_truthy fc then
        let w1 := add_query (QFindFirst (post_lookup u t nm)) w in
        match name_condition nm with
        | None => failed_create w1
        | Some cond =>
            match find (fun r => String_eqb (tenantId r) t && cond (name (scalars r))
                                 && String_eqb (createdBy r) u) (presets w) with
            | Some _ => (Normal (Conflict (js "Preset with this name already exists")), w1)
            | None =>
                let d := post_data u t body nm fc in
                let w2 := add_query (QCreate d) w1 in
                match validate_create g d with
                | None => failed_create w2
                | Some r =>
                    match JSON_parse (filterConfig (scalars r)) with
                    | Some parsed =>
                        (Normal (Created {| preset := with_parsed r parsed;
                                            creator := find_creator (users w) (createdBy r) |}),
                         add_preset r w2)
                    | None => failed_create (add_preset r w2)
                    end
                end
            end
        end
      else (Normal (BadRequest (js "Missing required fields: name, filterConfig")), w)
  | _, _ => (Normal (BadRequest (js "Missing required fields: name, filterConfig")), w)
  end.
Proof.
  destruct ctx as [[[[|u0 u1]|] [[|t0 t1]|]]|]; cbn [identity]; intros H Hj Hn;
    try discriminate.
  injection H as <- <-.
  cbv beta iota zeta delta [POST try_catch bind of_option ret throw console_error
                             prisma_findFirst prisma_create record_query failed_create
                             post_data post_lookup].
  rewrite Hj.
  destruct body as [ |b|n|s|l|o]; try congruence;
    (destruct (get_prop _ (js "name")) as [nm|]; [|reflexivity];
     destruct (get_prop _ (js "filterConfig")) as [fc|]; [|reflexivity];
     destruct (json_truthy nm); [|reflexivity];
     destruct (json_truthy fc); [|reflexivity];
     cbv beta iota zeta;
     cbn [negb orb andb where_name where_tenantId where_createdBy];
     destruct (name_condition nm) as [cond|]; [|reflexivity];
     cbv beta iota zeta; cbn [presets add_query];
     match goal with
     | |- context [find ?f (presets w)] =>
         destruct (find f (presets w)) as [r0|]; [reflexivity|]
     end;
     cbv beta iota zeta;
     match goal with
     | |- context [validate_create g ?d] =>
         destruct (validate_create g d) as [r|]; [|reflexivity]
     end;
     cbv beta iota zeta;
     cbn [preset scalars users add_preset add_query createdBy];
     destruct (JSON_parse (filterConfig (scalars r))); reflexivity).
Qed.

Lemma validate_create_fields (g : Generated) (d : CreateData) (r : Row) :
  validate_create g d = Some r ->
  tenantId r = data_tenantId d /\ createdBy r = data_createdBy d
  /\ id (scalars r) = new_id g
  /\ data_name d = JStr (name (scalars r))
  /\ as_nullable_string (data_description d) = Some (description (scalars r))
  /\ data_entityType d = JStr (entityType (scalars r))
  /\ filterConfig (scalars r) = data_filterConfig d
  /\ data_filterLogic d = JStr (filterLogic (scalars r))
  /\ data_isPublic d = JBool (isPublic (scalars r))
  /\ as_nullable_string (data_icon d) = Some (icon (scalars r))
  /\ as_nullable_string (data_color d) = Some (color (scalars r)).
Proof.
  unfold validate_create.
  destruct (data_name d) as [ | | |n| | ]; cbn [as_string]; try discriminate.
  destruct (as_nullable_string (data_description d)) as [de|]; try discriminate.
  destruct (data_entityType d) as [ | | |et| | ]; cbn [as_string]; try discriminate.
  destruct (data_filterLogic d) as [ | | |fl| | ]; cbn [as_string]; try discriminate.
  destruct (data_isPublic d) as [ |ip| | | | ]; cbn [as_boolean]; try discriminate.
  destruct (as_nullable_string (data_icon d)) as [ic|]; try discriminate.
  destruct (as_nullable_string (data_color d)) as [co|]; try discriminate.
  intros H. injection H as <-. cbn. repeat split; reflexivity.
Qed.

(** What a [Created] response tells about the run that gave it. *)
Lemma POST_Created_inv (g : Generated) (ctx : option TenantContext) (req : NextRequest)
      (w w' : World) (d : WithCreator json) :
  POST g ctx req w = (Normal (Created d), w') ->
  exists u t body nm fc r parsed,
    identity ctx = Some (u, t) /\ request_json req = Some body
    /\ get_prop body (js "name") = Some nm
    /\ get_prop body (js "filterConfig") = Some fc
    /\ json_truthy nm = true /\ json_truthy fc = true
    /\ validate_create g (post_data u t body nm fc) = Some r
    /\ JSON_parse (JSON_stringify fc) = Some parsed
    /\ d = {| preset := with_parsed r parsed;
              creator := find_creator (users w) (createdBy r) |}
    /\ w' = add_preset r (add_query (QCreate (post_data u t body nm fc))
                                    (add_query (QFindFirst (post_lookup u t nm)) w)).
Proof.
  intros H.
  destruct (identity ctx) as [[u t]|] eqn:Ei;
    [|rewrite (POST_no_identity g _ req w Ei) in H; discriminate].
  destruct (request_json req) as [body|] eqn:Ej;
    [|rewrite (POST_no_json g _ req w Ei Ej) in H; discriminate].
  assert (Hn : body <> JNull).
  { intros ->. rewrite (POST_null g _ req w Ei Ej) in H. discriminate. }
  rewrite (POST_steps g _ req w Ei Ej Hn) in H.
  destruct (get_prop body (js "name")) as [nm|] eqn:En; [|discriminate].
  destruct (get_prop body (js "filterConfig")) as [fc|] eqn:Ef; [|discriminate].
  destruct (json_truthy nm) eqn:Tn; [|discriminate].
  destruct (json_truthy fc) eqn:Tf; [|discriminate].
  cbn [andb] in H. cbv zeta in H.
  destruct (name_condition nm) as [cond|]; [|discriminate].
  match type of H with
  | context [find ?f (presets w)] => destruct (find f (presets w)) as [r0|]
  end; [discriminate|].
  destruct (validate_create g (post_data u t body nm fc)) as [r|] eqn:Ev; [|discriminate].
  pose proof (validate_create_fields _ _ Ev) as (_ & _ & _ & _ & _ & _ & Hfc & _).
  cbn [post_data data_filterConfig] in Hfc.
  destruct (JSON_parse (filterConfig (scalars r))) as [parsed|] eqn:Ep; [|discriminate].
  injection H as <- <-.
  exists u, t, body, nm, fc, r, parsed.
  rewrite Hfc in Ep. repeat split; try reflexivity; assumption.
Qed.

End CreateFacts.

(** * The claims *)

Section ListClaims.

Context {P : Platform}.

Notation json := (Json fin).

(** C1.  For a list call with a user and a tenant, [GET] makes one
    [findMany] call whose [where] object matches a row exactly when the row
    is in the caller's tenant, has the requested entity type, and passes the
    visibility rule taken in this precedence: public rows only when the
    [isPublic] filter is true; otherwise public rows or the caller's own rows
    when [includeShared] is true; otherwise the caller's own rows only.  An
    [Ok] response shows exactly those rows of the table, in the query's
    order. *)
Theorem list_visibility_precedence (ctx : option TenantContext) (req : NextRequest)
        (w : World) (u t : jsstring) :
  identity ctx = Some (u, t) ->
  let ps := searchParams req in
  let rule := visible t u (query_entityType ps) (query_isPublic ps)
                      (query_includeShared ps) in
  queries (snd (GET ctx req w)) = queries w ++ [QFindMany (list_query u t ps) presetOrder]
  /\ (forall r, where_matches (list_query u t ps) r = rule r)
  /\ (forall items, fst (GET ctx req w) = Normal (Ok items) ->
        Forall2 (shows (users w)) (sort_rows presetOrder (filter rule (presets w))) items).
Proof.
  intros Hi ps rule.
  assert (Hrule : forall r, where_matches (list_query u t ps) r = rule r)
    by (intros r; apply whereClause_visible).
  split; [|split; [exact Hrule|]].
  - rewrite (GET_identity _ req w Hi). cbv zeta.
    destruct (map_option parse_listed _); reflexivity.
  - intros items H.
    destruct (GET ctx req w) as [c w'] eqn:E. cbn [fst] in H. subst c.
    destruct (GET_Ok_shows _ _ _ E) as (u' & t' & Hi' & HF).
    rewrite Hi in Hi'. injection Hi' as <- <-.
    unfold list_rows in HF. fold ps in HF.
    now rewrite (filter_ext _ _ Hrule) in HF.
Qed.

(** C2.  Whatever the visibility branch, the query of a list call matches
    only rows whose [tenantId] is the caller's tenant and whose [entityType]
    is the requested one, and every element of an [Ok] response shows such a
    row of the table; a call without identity makes no query at all. *)
Theorem list_stays_in_tenant (ctx : option TenantContext) (req : NextRequest) (w : World) :
  match identity ctx with
  | Some (u, t) =>
      exists q,
        queries (snd (GET ctx req w)) = queries w ++ [QFindMany q presetOrder]
        /\ (forall r, where_matches q r = true ->
              tenantId r = t
              /\ entityType (scalars r) = query_entityType (searchParams req))
        /\ (forall items, fst (GET ctx req w) = Normal (Ok items) ->
              Forall (fun it => exists r,
                          In r (presets w) /\ shows (users w) r it
                          /\ tenantId r = t
                          /\ entityType (scalars r) = query_entityType (searchParams req))
                     items)
  | None => queries (snd (GET ctx req w)) = queries w
  end.
Proof.
  destruct (identity ctx) as [[u t]|] eqn:Hi.
  - exists (list_query u t (searchParams req)).
    assert (Hm : forall r, where_matches (list_query u t (searchParams req)) r = true ->
                 tenantId r = t
                 /\ entityType (scalars r) = query_entityType (searchParams req)).
    { intros r. unfold list_query. rewrite whereClause_visible. unfold visible.
      intros H. apply andb_true_iff in H. destruct H as [H _].
      apply andb_true_iff in H. destruct H as [H1 H2].
      split; now apply String_eqb_eq. }
    split; [|split; [exact Hm|]].
    + rewrite (GET_identity _ req w Hi). cbv zeta.
      destruct (map_option parse_listed _); reflexivity.
    + intros items H.
      destruct (GET ctx req w) as [c w'] eqn:E. cbn [fst] in H. subst c.
      destruct (GET_Ok_shows _ _ _ E) as (u' & t' & Hi' & HF).
      rewrite Hi in Hi'. injection Hi' as <- <-.
      assert (Hrows : Forall (fun r => In r (presets w)
                                       /\ where_matches (list_query u t (searchParams req)) r = true)
                             (list_rows u t (searchParams req) w)).
      { apply Forall_forall. intros r Hr. now apply list_rows_matched. }
      eapply Forall2_Forall_right; [|exact HF|exact Hrows].
      intros r it Hs [Hin Hw]. cbv beta.
      exists r. destruct (Hm r Hw) as [H1 H2]. auto.
  - now rewrite (GET_no_identity _ req w Hi).
Qed.

(** C5.  The sequence of an [Ok] list response is sorted by [isDefault]
    descending, then [usageCount] descending, then [createdAt] descending:
    every element may stand before every later one. *)
Theorem list_sorted (ctx : option TenantContext) (req : NextRequest) (w w' : World)
        (items : list (Listed json)) :
  GET ctx req w = (Normal (Ok items), w') ->
  StronglySorted (fun a b => listed_before (listed a) (listed b)) items.
Proof.
  intros H. destruct (GET_Ok_shows _ _ _ H) as (u & t & _ & HF).
  eapply StronglySorted_Forall2; [|exact HF|apply sort_rows_sorted].
  intros a b a' b' Ha Hb Hab.
  apply presetOrder_listed_before in Hab.
  destruct (shows_scalars Ha) as [-> _]. destruct (shows_scalars Hb) as [-> _].
  exact Hab.
Qed.

(** C9.  The query parameters of a list request are decoded so: the entity
    type is ["users"] when the parameter is not given (or is empty) and the
    given value otherwise; the [isPublic] filter is on exactly when the value
    is the string ["true"]; [includeShared] is off exactly when the value is
    the string ["false"]; and the query of the call is built from these three
    values. *)
Theorem query_decoding (ps : list (jsstring * jsstring)) :
  (searchParams_get ps (js "entityType") = None -> query_entityType ps = js "users")
  /\ (forall v, searchParams_get ps (js "entityType") = Some v ->
        query_entityType ps = match v with [] => js "users" | _ => v end)
  /\ (query_isPublic ps = true <-> searchParams_get ps (js "isPublic") = Some (js "true"))
  /\ (query_includeShared ps = false
      <-> searchParams_get ps (js "includeShared") = Some (js "false"))
  /\ (forall ctx req w u t,
        identity ctx = Some (u, t) -> searchParams req = ps ->
        queries (snd (GET ctx req w))
        = queries w ++ [QFindMany (whereClause t u (query_entityType ps) (query_isPublic ps)
                                               (query_includeShared ps)) presetOrder]).
Proof.
  repeat split.
  - unfold query_entityType. now intros ->.
  - unfold query_entityType. intros v ->. now destruct v.
  - unfold query_isPublic.
    destruct (searchParams_get ps (js "isPublic")) as [v|]; [|discriminate].
    intros H. apply String_eqb_eq in H. now subst.
  - unfold query_isPublic. intros ->. reflexivity.
  - unfold query_includeShared.
    destruct (searchParams_get ps (js "includeShared")) as [v|]; [|discriminate].
    intros H. apply negb_false_iff in H. apply String_eqb_eq in H. now subst.
  - unfold query_includeShared. intros ->. reflexivity.
  - intros ctx req w u t Hi <-.
    rewrite (GET_identity _ req w Hi). cbv zeta.
    destruct (map_option parse_listed _); reflexivity.
Qed.

End ListClaims.

Section CreateClaims.

Context {P : Platform}.

Notation json := (Json fin).

Lemma find_existsb (A : Type) (f : A -> bool) (l : list A) :
  existsb f l = match find f l with Some _ => true | None => false end.
Proof.
  induction l as [|x l IH]; cbn; [reflexivity|].
  destruct (f x); [reflexivity|exact IH].
Qed.




Lemma owns_name_find (u t nm : jsstring) (rows : list Row) :
  owns_name t u nm rows
  = match find (fun r => String_eqb (tenantId r) t
                         && (fun x => String_eqb x nm) (name (scalars r))
                         && String_eqb (createdBy r) u) rows with
    | Some _ => true
    | None => false
    end.
Proof. unfold owns_name. apply find_existsb. Qed.


Lemma Forall2_In_right (A B : Type) (Q : A -> B -> Prop) (l : list A) (l' : list B)
      (y : B) :
  Forall2 Q l l' -> In y l' -> exists x, In x l /\ Q x y.
Proof.
  intros H. induction H as [|a b l l' Hab H IH]; intros Hin; [contradiction|].
  destruct Hin as [<-|Hin].
  - exists a. split; [now left|exact Hab].
  - destruct (IH Hin) as (x & Hx & Hq). exists x. split; [now right|exact Hq].
Qed.


(** C4.  When the caller context is missing or lacks a user or a tenant,
    both handlers answer [Unauthorized] and leave the world as it was: no
    call on the storage client, no row stored. *)
Theorem unauthorized_without_identity (g : Generated) (ctx : option TenantContext)
        (req : NextRequest) (w : World) :
  lacks_identity ctx ->
  GET ctx req w = (Normal Unauthorized, w)
  /\ POST g ctx req w = (Normal Unauthorized, w).
Proof.
  intros H. apply lacks_identity_None in H.
  split; [now apply GET_no_identity|now apply POST_no_identity].
Qed.

(** C7, amended.  For a create call with a user and a tenant whose JSON
    payload is not null: when [filterConfig] is omitted, or [name] is absent
    or empty, the answer is [BadRequest] and the world is as it was (neither
    the uniqueness check nor the insert is made). *)
Theorem missing_fields_bad_request (g : Generated) (ctx : option TenantContext)
        (req : NextRequest) (w : World) (u t : jsstring) (body : json) :
  identity ctx = Some (u, t) -> request_json req = Some body -> body <> JNull ->
  missing_required body ->
  POST g ctx req w
  = (Normal (BadRequest (js "Missing required fields: name, filterConfig")), w).
Proof.
  intros Hi Hj Hn Hm.
  rewrite (POST_steps g _ req w Hi Hj Hn).
  destruct Hm as [H|[H|H]]; rewrite H.
  - now destruct (get_prop body (js "name")).
  - reflexivity.
  - now destruct (get_prop body (js "filterConfig")).
Qed.



(** C10.  After a successful create, each of [description], [icon] and
    [color] is stored as null when the submitted value is absent or falsy;
    an empty string in particular is stored as null. *)
Theorem optional_fields_null (g : Generated) (ctx : option TenantContext)
        (req : NextRequest) (w w' : World) (d : WithCreator json) :
  POST g ctx req w = (Normal (Created d), w') ->
  exists body row,
    request_json req = Some body
    /\ presets w' = presets w ++ [row]
    /\ (truthy (get_prop body (js "description")) = false ->
          description (scalars row) = None /\ description (scalars (preset d)) = None)
    /\ (truthy (get_prop body (js "icon")) = false ->
          icon (scalars row) = None /\ icon (scalars (preset d)) = None)
    /\ (truthy (get_prop body (js "color")) = false ->
          color (scalars row) = None /\ color (scalars (preset d)) = None).
Proof.
  intros H.
  destruct (POST_Created_inv _ _ _ _ H)
    as (u & t & body & nm & fc & r & parsed & Hi & Hj & En & Ef & Tn & Tf & Hv & Hp & -> & ->).
  exists body, r.
  pose proof (validate_create_fields _ _ Hv)
    as (_ & _ & _ & _ & Hde & _ & _ & _ & _ & Hic & Hco).
  cbn [post_data data_description data_icon data_color] in Hde, Hic, Hco.
  assert (Hnull : forall v o, truthy v = false ->
                              as_nullable_string (or_else v JNull) = Some o -> o = None).
  { intros v o Ht Ho. unfold or_else in Ho. destruct v as [x|].
    - cbn [truthy] in Ht. rewrite Ht in Ho. now injection Ho as <-.
    - now injection Ho as <-. }
  repeat split; try assumption; try reflexivity;
    cbn [preset with_parsed scalars with_filterConfig description icon color];
    eapply Hnull; eassumption.
Qed.

End CreateClaims.

Section RoundTripClaim.

Context {P : Platform}.

Notation json := (Json fin).


End RoundTripClaim.

(** ** The claims on the sample requests *)

Lemma list_visibility_precedence_sample :
  identity ctx_ann = Some (ann, acme)
  /\ queries (snd (GET ctx_ann (list_request [(js "includeShared", js "false")]) sample_world))
     = [QFindMany (list_query ann acme [(js "includeShared", js "false")]) presetOrder].
Proof.
  split; [reflexivity|].
  exact (proj1 (@list_visibility_precedence IntPlatform ctx_ann
                  (list_request [(js "includeShared", js "false")]) sample_world
                  ann acme eq_refl)).
Defined.

Lemma unauthorized_without_identity_sample :
  lacks_identity ctx_no_user
  /\ GET ctx_no_user (create_request body_x) sample_world = (Normal Unauthorized, sample_world)
  /\ POST (generated "n1" 500) ctx_no_user (create_request body_x) sample_world
     = (Normal Unauthorized, sample_world).
Proof.
  split; [left; reflexivity|].
  apply (@unauthorized_without_identity IntPlatform). left. reflexivity.
Defined.

Lemma list_sorted_sample :
  exists items w',
    GET ctx_ann (list_request []) sample_world = (Normal (Ok items), w')
    /\ map (fun it => id (listed it)) items = [js "p3"; js "p4"; js "p2"; js "p1"]
    /\ StronglySorted (fun a b => listed_before (listed a) (listed b)) items.
Proof.
  eexists. eexists. split; [vm_compute; reflexivity|].
  split; [vm_compute; reflexivity|].
  eapply (@list_sorted IntPlatform ctx_ann (list_request []) sample_world).
  vm_compute. reflexivity.
Defined.

Lemma missing_fields_bad_request_sample :
  missing_required body_name_only
  /\ POST (generated "n1" 500) ctx_ann (create_request body_name_only) sample_world
     = (Normal (BadRequest (js "Missing required fields: name, filterConfig")), sample_world).
Proof.
  split; [left; reflexivity|].
  apply (@missing_fields_bad_request IntPlatform _ ctx_ann _ _ ann acme body_name_only);
    try reflexivity; try discriminate.
  left. reflexivity.
Defined.

(** C7 as stated fails: the payload omits [filterConfig], yet the caller has
    no user and the answer is [Unauthorized], not [BadRequest]; and for the
    payload [null], which has no field at all, the destructuring throws and
    the answer is [ServerError]. *)
Lemma bad_request_needs_identity :
  missing_required body_name_only
  /\ fst (POST (generated "n1" 500) ctx_no_user (create_request body_name_only) sample_world)
     = Normal Unauthorized
  /\ fst (POST (generated "n1" 500) ctx_no_user (create_request body_name_only) sample_world)
     <> Normal (BadRequest (js "Missing required fields: name, filterConfig"))
  /\ missing_required (@JNull IntNumber)
  /\ fst (POST (generated "n1" 500) ctx_ann (create_request JNull) sample_world)
     = Normal (ServerError (js "Failed to create preset")).
Proof.
  split; [left; reflexivity|]. split; [reflexivity|]. split; [discriminate|].
  split; [left; reflexivity|reflexivity].
Qed.





Lemma optional_fields_null_sample :
  exists d w',
    POST (generated "n1" 500) ctx_ann (create_request body_x) empty_world
    = (Normal (Created d), w')
    /\ get_prop body_x (js "description") = Some (JStr [])
    /\ exists body row,
         request_json (create_request body_x) = Some body
         /\ presets w' = presets empty_world ++ [row]
         /\ (truthy (get_prop body (js "description")) = false ->
               description (scalars row) = None /\ description (scalars (preset d)) = None)
         /\ (truthy (get_prop body (js "icon")) = false ->
               icon (scalars row) = None /\ icon (scalars (preset d)) = None)
         /\ (truthy (get_prop body (js "color")) = false ->
               color (scalars row) = None /\ color (scalars (preset d)) = None).
Proof.
  eexists. eexists. split; [vm_compute; reflexivity|]. split; [reflexivity|].
  eapply (@optional_fields_null IntPlatform (generated "n1" 500) ctx_ann (create_request body_x)
                                empty_world).
  vm_compute. reflexivity.
Defined.



(** * Further properties of the handlers *)

Lemma map_option_None (A B : Type) (f : A -> option B) (l : list A) :
  map_option f l = None <-> exists x, In x l /\ f x = None.
Proof.
  induction l as [|x l IH]; cbn [map_option].
  - split; [discriminate|]. intros (x & [] & _).
  - destruct (f x) as [y|] eqn:E.
    + destruct (map_option f l) as [ys|].
      * split; [discriminate|]. intros (z & [<-|Hz] & Hf); [congruence|].
        assert (Hn : Some ys = None) by (apply (proj2 IH); now exists z).
        discriminate.
      * split; [|reflexivity]. intros _.
        destruct (proj1 IH eq_refl) as (z & Hz & Hf). exists z. split; [now right|exact Hf].
    + split; [|reflexivity]. intros _. exists x. split; [now left|exact E].
Qed.

Lemma Forall2_In_left (A B : Type) (Q : A -> B -> Prop) (l : list A) (l' : list B)
      (x : A) :
  Forall2 Q l l' -> In x l -> exists y, In y l' /\ Q x y.
Proof.
  intros H. induction H as [|a b l l' Hab H IH]; intros Hin; [contradiction|].
  destruct Hin as [<-|Hin].
  - exists b. split; [now left|exact Hab].
  - destruct (IH Hin) as (y & Hy & Hq). exists y. split; [now right|exact Hq].
Qed.

Section ListExtras.

Context {P : Platform}.

Notation json := (Json fin).

(** X1.  [GET] only reads: whatever the caller and the request, the rows and
    the users are as before, and the handler has made no call on the storage
    client or exactly one [findMany]. *)
Theorem list_is_read_only (ctx : option TenantContext) (req : NextRequest) (w : World) :
  presets (snd (GET ctx req w)) = presets w
  /\ users (snd (GET ctx req w)) = users w
  /\ (queries (snd (GET ctx req w)) = queries w
      \/ exists q, queries (snd (GET ctx req w)) = queries w ++ [QFindMany q presetOrder]).
Proof.
  destruct (identity ctx) as [[u t]|] eqn:Hi.
  - rewrite (GET_identity _ req w Hi). cbv zeta.
    destruct (map_option parse_listed _); cbn; repeat split; right; eexists; reflexivity.
  - rewrite (GET_no_identity _ req w Hi). cbn. repeat split. now left.
Qed.

(** X2.  For a caller with identity, the list call fails as a whole, with
    [ServerError] and a line on the console, exactly when some row matched by
    the query holds a [filterConfig] text that is not JSON; otherwise it
    answers [Ok] with one element per matched row. *)
Theorem list_fails_on_unreadable_row (ctx : option TenantContext) (req : NextRequest)
        (w : World) (u t : jsstring) :
  identity ctx = Some (u, t) ->
  let q := list_query u t (searchParams req) in
  ((exists r, In r (presets w) /\ where_matches q r = true
              /\ JSON_parse (filterConfig (scalars r)) = None)
   -> GET ctx req w
      = (Normal (ServerError (js "Failed to fetch presets")),
         add_console (js "Failed to fetch filter presets:")
                     (add_query (QFindMany q presetOrder) w)))
  /\ ((forall r, In r (presets w) -> where_matches q r = true ->
                 JSON_parse (filterConfig (scalars r)) <> None)
      -> exists items,
           GET ctx req w = (Normal (Ok items), add_query (QFindMany q presetOrder) w)
           /\ List.length items = List.length (filter (where_matches q) (presets w))).
Proof.
  intros Hi q. rewrite (GET_identity _ req w Hi). cbv zeta. fold q.
  split.
  - intros (r & Hin & Hm & Hp).
    assert (Hnone : map_option parse_listed
                      (map (select_listed (users w)) (list_rows u t (searchParams req) w))
                    = None).
    { apply map_option_None. exists (select_listed (users w) r). split.
      - apply in_map. apply list_rows_matched. now split.
      - unfold parse_listed. cbn [select_listed listed]. now rewrite Hp. }
    now rewrite Hnone.
  - intros Hall.
    destruct (map_option parse_listed _) as [items|] eqn:E.
    + exists items. split; [reflexivity|].
      apply map_option_Forall2 in E. apply Forall2_length in E.
      rewrite <- E, length_map. unfold list_rows.
      apply Permutation_length, sort_rows_perm.
    + exfalso. apply map_option_None in E. destruct E as (p & Hp & Hf).
      apply in_map_iff in Hp. destruct Hp as (r & <- & Hr).
      apply list_rows_matched in Hr. destruct Hr as [Hin Hm].
      apply (Hall r Hin Hm).
      unfold parse_listed in Hf. cbn [select_listed listed] in Hf.
      now destruct (JSON_parse (filterConfig (scalars r))).
Qed.

(** X3.  Whatever the query parameters, every element of an [Ok] list
    response shows a row that is public or was created by the caller: a
    private preset of another user is never listed. *)
Theorem list_never_shows_private_of_others (ctx : option TenantContext)
        (req : NextRequest) (w w' : World) (items : list (Listed json))
        (it : Listed json) :
  GET ctx req w = (Normal (Ok items), w') -> In it items ->
  exists u t r,
    identity ctx = Some (u, t) /\ In r (presets w) /\ shows (users w) r it
    /\ (isPublic (listed it) = true \/ createdBy r = u).
Proof.
  intros H Hit. destruct (GET_Ok_shows _ _ _ H) as (u & t & Hi & HF).
  destruct (@Forall2_In_right _ _ _ _ _ _ HF Hit) as (r & Hr & Hs).
  apply list_rows_matched in Hr. destruct Hr as [Hin Hm].
  exists u, t, r. repeat split; try assumption.
  destruct (shows_scalars Hs) as [-> _]. cbn [with_filterConfig isPublic].
  unfold list_query in Hm. rewrite whereClause_visible in Hm. unfold visible in Hm.
  apply andb_true_iff in Hm. destruct Hm as [_ Hm].
  destruct (query_isPublic (searchParams req)); [now left|].
  assert (Hor : isPublic (scalars r) || String_eqb (createdBy r) u = true).
  { destruct (query_includeShared (searchParams req)); [exact Hm|].
    rewrite Hm. apply orb_true_r. }
  apply orb_true_iff in Hor. destruct Hor as [Hp|Hc]; [now left|].
  right. now apply String_eqb_eq.
Qed.

(** X4.  The three views nest: the shared view (no [isPublic] filter,
    [includeShared] on) matches a row exactly when the public-only view or
    the own-only view does, for the same tenant, user and entity type. *)
Theorem shared_view_is_union (tenant user entity : jsstring) (s : bool) (r : Row) :
  where_matches (whereClause tenant user entity false true) r
  = where_matches (whereClause tenant user entity true s) r
    || where_matches (whereClause tenant user entity false false) r.
Proof.
  rewrite !whereClause_visible. unfold visible.
  destruct (String_eqb (tenantId r) tenant), (String_eqb (entityType (scalars r)) entity),
    (isPublic (scalars r)), (String_eqb (createdBy r) user); reflexivity.
Qed.

End ListExtras.

Section CreateExtras.

Context {P : Platform}.

Notation json := (Json fin).
Notation object := (list (jsstring * Json fin)).

Lemma validate_create_generated (g : Generated) (d : CreateData) (r : Row) :
  validate_create g d = Some r ->
  isDefault (scalars r) = new_isDefault g /\ usageCount (scalars r) = new_usageCount g
  /\ lastUsedAt (scalars r) = new_lastUsedAt g
  /\ createdAt (scalars r) = new_createdAt g /\ updatedAt (scalars r) = new_updatedAt g.
Proof.
  unfold validate_create.
  destruct (as_string (data_name d)); try discriminate.
  destruct (as_nullable_string (data_description d)); try discriminate.
  destruct (as_string (data_entityType d)); try discriminate.
  destruct (as_string (data_filterLogic d)); try discriminate.
  destruct (as_boolean (data_isPublic d)); try discriminate.
  destruct (as_nullable_string (data_icon d)); try discriminate.
  destruct (as_nullable_string (data_color d)); try discriminate.
  intros H. injection H as <-. cbn. repeat split; reflexivity.
Qed.

(** Every run of [POST] either stores nothing, or goes through the whole
    chain: identity, payload, uniqueness check, accepted [data], insert. *)
Lemma POST_cases (g : Generated) (ctx : option TenantContext) (req : NextRequest)
      (w : World) :
  users (snd (POST g ctx req w)) = users w
  /\ ((presets (snd (POST g ctx req w)) = presets w
       /\ (forall d, fst (POST g ctx req w) <> Normal (Created d))
       /\ (queries (snd (POST g ctx req w)) = queries w
           \/ (exists a, queries (snd (POST g ctx req w)) = queries w ++ [QFindFirst a])
           \/ (exists a dt, queries (snd (POST g ctx req w))
                            = queries w ++ [QFindFirst a; QCreate dt])))
      \/ (exists u t body nm fc r,
            identity ctx = Some (u, t) /\ request_json req = Some body
            /\ get_prop body (js "name") = Some (JStr nm) /\ nm <> []
            /\ get_prop body (js "filterConfig") = Some fc /\ json_truthy fc = true
            /\ owns_name t u nm (presets w) = false
            /\ validate_create g (post_data u t body (JStr nm) fc) = Some r
            /\ presets (snd (POST g ctx req w)) = presets w ++ [r]
            /\ queries (snd (POST g ctx req w))
               = queries w ++ [QFindFirst (post_lookup u t (JStr nm));
                               QCreate (post_data u t body (JStr nm) fc)]
            /\ match JSON_parse (JSON_stringify fc) with
               | Some parsed =>
                   fst (POST g ctx req w)
                   = Normal (Created {| preset := with_parsed r parsed;
                                        creator := find_creator (users w) (createdBy r) |})
               | None =>
                   fst (POST g ctx req w) = Normal (ServerError (js "Failed to create preset"))
               end)).
Proof.
  destruct (identity ctx) as [[u t]|] eqn:Hi;
    [|rewrite (POST_no_identity g _ req w Hi); cbn;
      split; [reflexivity|left; repeat split; [discriminate|now left]]].
  destruct (request_json req) as [body|] eqn:Hj;
    [|rewrite (POST_no_json g _ req w Hi Hj); cbn;
      split; [reflexivity|left; repeat split; [discriminate|now left]]].
  assert (Hnull : body = JNull \/ body <> JNull)
    by (destruct body; [now left|right; discriminate ..]).
  destruct Hnull as [->|Hnull];
    [rewrite (POST_null g _ req w Hi Hj); cbn;
     split; [reflexivity|left; repeat split; [discriminate|now left]]|].
  rewrite (POST_steps g _ req w Hi Hj Hnull).
  destruct (get_prop body (js "name")) as [nm|] eqn:En;
    [|cbn; split; [reflexivity|left; repeat split; [discriminate|now left]]].
  destruct (get_prop body (js "filterConfig")) as [fc|] eqn:Ef;
    [|cbn; split; [reflexivity|left; repeat split; [discriminate|now left]]].
  destruct (json_truthy nm) eqn:Tn;
    [|cbn; split; [reflexivity|left; repeat split; [discriminate|now left]]].
  destruct (json_truthy fc) eqn:Tf;
    [|cbn; split; [reflexivity|left; repeat split; [discriminate|now left]]].
  cbn [andb]. cbv zeta.
  destruct (name_condition nm) as [cond|] eqn:Ec;
    [|cbn; split; [reflexivity|left; repeat split;
                                [discriminate|right; left; eexists; reflexivity]]].
  match goal with
  | |- context [find ?f (presets w)] => destruct (find f (presets w)) as [r0|] eqn:Efind
  end;
    [cbn; split; [reflexivity|left; repeat split;
                               [discriminate|right; left; eexists; reflexivity]]|].
  destruct (validate_create g (post_data u t body nm fc)) as [r|] eqn:Ev;
    [|cbn; split; [reflexivity|left; repeat split;
                                [discriminate|right; right; eexists; eexists;
                                              rewrite <- app_assoc; reflexivity]]].
  pose proof (validate_create_fields _ _ Ev) as (_ & _ & _ & Hname & _ & _ & Hfc & _).
  cbn [post_data data_name data_filterConfig] in Hname, Hfc. subst nm.
  cbn [name_condition] in Ec. injection Ec as <-.
  assert (Hne : name (scalars r) <> []) by (intros E; rewrite E in Tn; discriminate).
  assert (Ho : owns_name t u (name (scalars r)) (presets w) = false)
    by (rewrite owns_name_find, Efind; reflexivity).
  rewrite Hfc.
  split; [destruct (JSON_parse (JSON_stringify fc)); reflexivity|].
  right. exists u, t, body, (name (scalars r)), fc, r.
  repeat (split; [assumption || reflexivity|]).
  split; [destruct (JSON_parse (JSON_stringify fc)); reflexivity|].
  split; [destruct (JSON_parse (JSON_stringify fc)); cbn; now rewrite <- app_assoc|].
  destruct (JSON_parse (JSON_stringify fc)); reflexivity.
Qed.

Lemma owns_name_not_In (t u nm : jsstring) (rows : list Row) :
  owns_name t u nm rows = false -> ~ In (t, u, nm) (map owner_key rows).
Proof.
  unfold owns_name. intros H Hin.
  apply in_map_iff in Hin. destruct Hin as (r & Hk & Hr).
  unfold owner_key in Hk. injection Hk as <- <- <-.
  assert (Ht : existsb (fun r0 => String_eqb (tenantId r0) (tenantId r)
                                  && String_eqb (name (scalars r0)) (name (scalars r))
                                  && String_eqb (createdBy r0) (createdBy r)) rows = true).
  { apply existsb_exists. exists r. split; [exact Hr|]. now rewrite !String_eqb_refl. }
  congruence.
Qed.

Lemma NoDup_snoc (A : Type) (l : list A) (x : A) :
  NoDup l -> ~ In x l -> NoDup (l ++ [x]).
Proof.
  induction l as [|y l IH]; intros Hnd Hx; cbn [app].
  - constructor; [intros []|constructor].
  - inversion Hnd as [|? ? Hy Hl]; subst. constructor.
    + intros Hin. apply in_app_or in Hin. destruct Hin as [Hin|[<-|[]]].
      * contradiction.
      * apply Hx. now left.
    + apply IH; [exact Hl|]. intros Hin. apply Hx. now right.
Qed.

Lemma js_value_obj_get (o : object) (k : jsstring) (v : json) :
  members_ok js_value o = true -> obj_get o k = Some v -> js_value v = true.
Proof.
  induction o as [|[k' x] o IH]; cbn [obj_get members_ok]; [discriminate|].
  intros H. apply andb_true_iff in H. destruct H as [Hx Ho].
  destruct (String_eqb k' k); [intros E; now injection E as <-|now apply IH].
Qed.

Lemma js_value_get_prop (body : json) (k : jsstring) (v : json) :
  js_value body = true -> get_prop body k = Some v -> js_value v = true.
Proof.
  destruct body as [ | | | | |o]; cbn [get_prop]; try discriminate.
  rewrite js_value_JObj. intros H. apply andb_true_iff in H. destruct H as [_ H].
  now apply js_value_obj_get.
Qed.

Lemma nullable_optional_text (v : option json) (o : option jsstring) :
  as_nullable_string (or_else v JNull) = Some o -> optional_text v = true.
Proof.
  unfold or_else, optional_text.
  destruct v as [[ |b|n|s|l|ob]|]; cbn [truthy json_truthy]; try reflexivity.
  - destruct b; [discriminate|reflexivity].
  - destruct (number_truthy n); [discriminate|reflexivity].
  - discriminate.
  - discriminate.
Qed.

Lemma logic_optional_text (v : option json) (s : jsstring) :
  or_else v (JStr (js "AND")) = JStr s -> optional_text v = true.
Proof.
  unfold or_else, optional_text.
  destruct v as [[ |b|n|s0|l|ob]|]; cbn [truthy json_truthy]; try reflexivity.
  - destruct b; [discriminate|reflexivity].
  - destruct (number_truthy n); [discriminate|reflexivity].
  - discriminate.
  - discriminate.
Qed.

(** The data [create] takes are exactly those of an accepted payload. *)
Lemma validate_create_accepted (g : Generated) (u t nm : jsstring) (body fc : json)
      (r : Row) :
  get_prop body (js "name") = Some (JStr nm) -> nm <> [] ->
  get_prop body (js "filterConfig") = Some fc -> json_truthy fc = true ->
  validate_create g (post_data u t body (JStr nm) fc) = Some r ->
  accepted_payload body = true.
Proof.
  intros En Hne Ef Tf Hv.
  pose proof (validate_create_fields _ _ Hv)
    as (_ & _ & _ & _ & Hde & Het & _ & Hfl & Hip & Hic & Hco).
  cbn [post_data data_description data_entityType data_filterLogic data_isPublic
       data_icon data_color] in Hde, Het, Hfl, Hip, Hic, Hco.
  unfold accepted_payload. rewrite En, Ef. cbn [truthy]. rewrite Tf.
  rewrite (nullable_optional_text _ Hde), (nullable_optional_text _ Hic),
    (nullable_optional_text _ Hco), (logic_optional_text _ Hfl).
  destruct nm as [|n0 nm]; [congruence|].
  destruct (get_prop body (js "entityType")) as [[ | | |et| | ]|]; try discriminate;
    destruct (get_prop body (js "isPublic")) as [[ |ip| | | | ]|]; try discriminate;
    reflexivity.
Qed.

(** X5.  When [request.json()] rejects, or resolves to [null], a caller with
    identity gets [ServerError]: one line goes to the console, no call is
    made on the storage client and no row is stored. *)
Theorem create_unreadable_body (g : Generated) (ctx : option TenantContext)
        (req : NextRequest) (w : World) (u t : jsstring) :
  identity ctx = Some (u, t) ->
  request_json req = None \/ request_json req = Some JNull ->
  POST g ctx req w
  = (Normal (ServerError (js "Failed to create preset")),
     add_console (js "Failed to create filter preset:") w).
Proof.
  intros Hi [Hj|Hj].
  - now rewrite (POST_no_json g _ req w Hi Hj).
  - now rewrite (POST_null g _ req w Hi Hj).
Qed.

(** X6.  [POST] never touches the users or an existing row, and stores at
    most one row, appended to the table.  A stored row carries the caller's
    tenant and user taken from the context, and the id, [isDefault] and
    [usageCount] the storage engine generates, whatever the payload holds;
    and it is stored only after the uniqueness check and the [create] call,
    in this order. *)
Theorem create_stamps_owner (g : Generated) (ctx : option TenantContext)
        (req : NextRequest) (w : World) :
  users (snd (POST g ctx req w)) = users w
  /\ (presets (snd (POST g ctx req w)) = presets w
      \/ exists r u t a dt,
           identity ctx = Some (u, t)
           /\ presets (snd (POST g ctx req w)) = presets w ++ [r]
           /\ tenantId r = t /\ createdBy r = u
           /\ id (scalars r) = new_id g
           /\ isDefault (scalars r) = new_isDefault g
           /\ usageCount (scalars r) = new_usageCount g
           /\ queries (snd (POST g ctx req w)) = queries w ++ [QFindFirst a; QCreate dt]).
Proof.
  destruct (POST_cases g ctx req w) as [Hu [(Hp & _)|H]].
  - split; [exact Hu|now left].
  - split; [exact Hu|]. right.
    destruct H as (u & t & body & nm & fc & r & Hi & Hj & En & Hne & Ef & Tf & Ho & Hv
                   & Hp & Hq & _).
    pose proof (validate_create_fields _ _ Hv) as (Ht & Hc & Hid & _).
    pose proof (validate_create_generated _ _ Hv) as (Hd & Huc & _).
    exists r, u, t. eexists. eexists.
    repeat (split; [eassumption|]). exact Hq.
Qed.

(** X7.  If no two rows of the table agree on tenant, owner and name, then
    no two rows do after [POST]: the check of lines 112 to 122 keeps names
    unique per owner. *)
Theorem create_keeps_names_unique (g : Generated) (ctx : option TenantContext)
        (req : NextRequest) (w : World) :
  NoDup (map owner_key (presets w)) ->
  NoDup (map owner_key (presets (snd (POST g ctx req w)))).
Proof.
  intros Hnd.
  destruct (POST_cases g ctx req w) as [_ [(Hp & _)|H]]; [now rewrite Hp|].
  destruct H as (u & t & body & nm & fc & r & Hi & Hj & En & Hne & Ef & Tf & Ho & Hv
                 & Hp & _).
  pose proof (validate_create_fields _ _ Hv) as (Ht & Hc & _ & Hname & _).
  cbn [post_data data_tenantId data_createdBy data_name] in Ht, Hc, Hname.
  injection Hname as Hname.
  rewrite Hp, map_app. cbn [map]. apply NoDup_snoc; [exact Hnd|].
  unfold owner_key at 1. rewrite Ht, Hc, <- Hname.
  now apply owns_name_not_In.
Qed.


(** X9.  Granted the law of Number::toString, the [filterConfig] of a
    [Created] response is the submitted value read back: a number that is not
    finite has become null, -0 has become +0, and nothing else has changed.
    The stored text is the serialized value, and the rest of the response is
    the stored row with its creator. *)
Theorem create_response_reads_back :
  NumberRoundTrip ->
  forall (g : Generated) (ctx : option TenantContext) (req : NextRequest)
         (w w' : World) (d : WithCreator json) (body fc : json),
    POST g ctx req w = (Normal (Created d), w') ->
    request_json req = Some body ->
    get_prop body (js "filterConfig") = Some fc ->
    js_value fc = true ->
    filterConfig (scalars (preset d)) = read_back fc
    /\ exists row,
         presets w' = presets w ++ [row]
         /\ filterConfig (scalars row) = JSON_stringify fc
         /\ preset d = with_parsed row (read_back fc)
         /\ creator d = find_creator (users w) (createdBy row).
Proof.
  intros lawful g ctx req w w' d body fc H Hj Hf Hv.
  destruct (POST_Created_inv _ _ _ _ H)
    as (u & t & body' & nm & fc' & r & parsed & Hi & Hj' & En & Ef & Tn & Tf & Hval & Hp & -> & ->).
  rewrite Hj in Hj'. injection Hj' as <-.
  rewrite Hf in Ef. injection Ef as <-.
  rewrite (JSON_parse_stringify lawful fc Hv) in Hp. injection Hp as <-.
  split; [reflexivity|]. exists r.
  pose proof (validate_create_fields _ _ Hval) as (_ & _ & _ & _ & _ & _ & Hfc & _).
  repeat split; try reflexivity. exact Hfc.
Qed.

(** X10.  Granted the law of Number::toString and a payload that is a
    JavaScript value, [POST] is all or nothing: the table changes exactly
    when the answer is [Created]; no other answer leaves a row behind. *)
Theorem create_is_atomic :
  NumberRoundTrip ->
  forall (g : Generated) (ctx : option TenantContext) (req : NextRequest) (w : World),
    (forall body, request_json req = Some body -> js_value body = true) ->
    ((exists d, fst (POST g ctx req w) = Normal (Created d))
     <-> presets (snd (POST g ctx req w)) <> presets w).
Proof.
  intros lawful g ctx req w Hbody.
  destruct (POST_cases g ctx req w) as [_ [(Hp & Hn & _)|H]].
  - split; [intros [d Hd]; now apply Hn in Hd|congruence].
  - destruct H as (u & t & body & nm & fc & r & Hi & Hj & En & Hne & Ef & Tf & Ho & Hv
                   & Hp & _ & Hout).
    assert (Hfc : js_value fc = true)
      by (eapply js_value_get_prop; [apply Hbody; exact Hj|exact Ef]).
    rewrite (JSON_parse_stringify lawful fc Hfc) in Hout.
    split.
    + intros _. rewrite Hp. intros E.
      apply (f_equal (@List.length _)) in E. rewrite length_app in E. cbn in E. lia.
    + intros _. eexists. exact Hout.
Qed.

(** X11.  A [name] that is not a string never creates a preset: whether it
    is a number, a boolean, an array or an object that the client reads as a
    filter, the table is unchanged and the answer is not [Created]. *)
Theorem non_string_name_never_creates (g : Generated) (ctx : option TenantContext)
        (req : NextRequest) (w : World) (body nm : json) :
  request_json req = Some body ->
  get_prop body (js "name") = Some nm ->
  (forall s, nm <> JStr s) ->
  presets (snd (POST g ctx req w)) = presets w
  /\ forall d, fst (POST g ctx req w) <> Normal (Created d).
Proof.
  intros Hj En Hns.
  destruct (POST_cases g ctx req w) as [_ [(Hp & Hn & _)|H]]; [now split|].
  destruct H as (u & t & body' & nm' & fc & r & Hi & Hj' & En' & _).
  rewrite Hj in Hj'. injection Hj' as <-.
  rewrite En in En'. injection En' as ->. now elim (Hns nm').
Qed.

(** X12.  For a caller with identity and a payload with a [filterConfig], a
    truthy [name] that is a number, a boolean or an array makes the
    uniqueness check throw: the answer is [ServerError], the check is the
    only call on the storage client, and nothing is stored. *)
Theorem scalar_name_is_server_error (g : Generated) (ctx : option TenantContext)
        (req : NextRequest) (w : World) (u t : jsstring) (body nm : json) :
  identity ctx = Some (u, t) -> request_json req = Some body ->
  get_prop body (js "name") = Some nm -> json_truthy nm = true ->
  match nm with JNum _ | JBool _ | JArr _ => True | _ => False end ->
  truthy (get_prop body (js "filterConfig")) = true ->
  POST g ctx req w
  = (Normal (ServerError (js "Failed to create preset")),
     add_console (js "Failed to create filter preset:")
                 (add_query (QFindFirst (post_lookup u t nm)) w)).
Proof.
  intros Hi Hj En Tn Hk Tf.
  assert (Hnull : body <> JNull) by (intros ->; discriminate).
  rewrite (POST_steps g _ req w Hi Hj Hnull), En.
  destruct (get_prop body (js "filterConfig")) as [fc|]; [|discriminate].
  cbn [truthy] in Tf. rewrite Tn, Tf. cbn [andb]. cbv zeta.
  destruct nm; try contradiction; reflexivity.
Qed.

(** X13.  For a caller with identity, a payload with a non-empty string as
    [name] that the caller does not own yet and a [filterConfig], but with an
    optional field of the wrong type (a truthy [description], [icon], [color]
    or [logic] that is not a string, an [entityType] that is not a string, an
    [isPublic] that is not a boolean): the answer is [ServerError], not
    [BadRequest]; both storage calls are made and nothing is stored. *)
Theorem wrong_type_is_server_error (g : Generated) (ctx : option TenantContext)
        (req : NextRequest) (w : World) (u t nm : jsstring) (body : json) :
  identity ctx = Some (u, t) -> request_json req = Some body ->
  get_prop body (js "name") = Some (JStr nm) -> nm <> [] ->
  truthy (get_prop body (js "filterConfig")) = true ->
  owns_name t u nm (presets w) = false ->
  accepted_payload body = false ->
  exists fc,
    get_prop body (js "filterConfig") = Some fc
    /\ POST g ctx req w
       = (Normal (ServerError (js "Failed to create preset")),
          add_console (js "Failed to create filter preset:")
            (add_query (QCreate (post_data u t body (JStr nm) fc))
               (add_query (QFindFirst (post_lookup u t (JStr nm))) w))).
Proof.
  intros Hi Hj En Hne Tf Ho Ha.
  assert (Hnull : body <> JNull) by (intros ->; discriminate).
  destruct (get_prop body (js "filterConfig")) as [fc|] eqn:Ef; [|discriminate].
  exists fc. split; [reflexivity|].
  rewrite (POST_steps g _ req w Hi Hj Hnull), En, Ef.
  cbn [truthy] in Tf. rewrite Tf.
  assert (Tn : json_truthy (JStr nm) = true) by (destruct nm; [congruence|reflexivity]).
  rewrite Tn. cbn [andb name_condition]. cbv zeta.
  rewrite owns_name_find in Ho.
  match goal with
  | |- context [find ?f (presets w)] => destruct (find f (presets w)); [discriminate|]
  end.
  destruct (validate_create g (post_data u t body (JStr nm) fc)) as [r|] eqn:Ev;
    [|reflexivity].
  rewrite (validate_create_accepted g u t body En Hne Ef Tf Ev) in Ha. discriminate.
Qed.


(** X15.  A preset just created is listed to its creator: in the world a
    successful create leaves, an [Ok] list response to the same caller for
    the preset's entity type has an element with the preset's id and name,
    unless the [isPublic] filter is on and the preset is not public. *)
Theorem created_preset_is_listed (g : Generated) (ctx : option TenantContext)
        (req req2 : NextRequest) (w w' w'' : World) (d : WithCreator json)
        (items : list (Listed json)) :
  POST g ctx req w = (Normal (Created d), w') ->
  GET ctx req2 w' = (Normal (Ok items), w'') ->
  query_entityType (searchParams req2) = entityType (scalars (preset d)) ->
  (query_isPublic (searchParams req2) = true -> isPublic (scalars (preset d)) = true) ->
  exists it,
    In it items
    /\ id (listed it) = id (scalars (preset d))
    /\ name (listed it) = name (scalars (preset d)).
Proof.
  intros Hpost Hget He Hpub.
  destruct (POST_Created_inv _ _ _ _ Hpost)
    as (u & t & body & nm & fc & r & parsed & Hi & Hj & En & Ef & Tn & Tf & Hv & Hp & -> & ->).
  cbn [preset with_parsed scalars with_filterConfig entityType isPublic id name] in *.
  destruct (GET_Ok_shows _ _ _ Hget) as (u' & t' & Hi' & HF).
  rewrite Hi in Hi'. injection Hi' as <- <-.
  pose proof (validate_create_fields _ _ Hv) as (Ht & Hc & _).
  cbn [post_data data_tenantId data_createdBy] in Ht, Hc.
  assert (Hin : In r (list_rows u t (searchParams req2)
                        (add_preset r (add_query (QCreate (post_data u t body nm fc))
                                         (add_query (QFindFirst (post_lookup u t nm)) w))))).
  { apply list_rows_matched. split.
    - cbn [presets add_preset]. apply in_or_app. right. now left.
    - unfold list_query. rewrite whereClause_visible. unfold visible.
      rewrite Ht, Hc, He, !String_eqb_refl. cbn [andb].
      destruct (query_isPublic (searchParams req2)); [now apply Hpub|].
      destruct (query_includeShared (searchParams req2)); [apply orb_true_r|reflexivity]. }
  destruct (@Forall2_In_left _ _ _ _ _ _ HF Hin) as (it & Hit & Hs).
  exists it. split; [exact Hit|].
  destruct (shows_scalars Hs) as [-> _]. split; reflexivity.
Qed.

End CreateExtras.

(** ** The further properties on the sample requests *)

Lemma list_fails_on_unreadable_row_sample :
  identity ctx_ann = Some (ann, acme)
  /\ In unreadable_row (presets unreadable_world)
  /\ GET ctx_ann (list_request []) unreadable_world
     = (Normal (ServerError (js "Failed to fetch presets")),
        add_console (js "Failed to fetch filter presets:")
                    (add_query (QFindMany (list_query ann acme []) presetOrder)
                               unreadable_world)).
Proof.
  split; [reflexivity|].
  assert (Hin : In unreadable_row (presets unreadable_world))
    by (apply in_or_app; right; now left).
  split; [exact Hin|].
  apply (proj1 (@list_fails_on_unreadable_row IntPlatform ctx_ann (list_request [])
                  unreadable_world ann acme eq_refl)).
  exists unreadable_row. split; [exact Hin|]. split; reflexivity.
Defined.

Lemma list_never_shows_private_of_others_sample :
  exists items w',
    GET ctx_bob (list_request []) sample_world = (Normal (Ok items), w')
    /\ map (fun it => id (listed it)) items = [js "p4"; js "p2"]
    /\ forall it, In it items ->
         exists u t r,
           identity ctx_bob = Some (u, t) /\ In r (presets sample_world)
           /\ shows (users sample_world) r it
           /\ (isPublic (listed it) = true \/ createdBy r = u).
Proof.
  eexists. eexists. split; [vm_compute; reflexivity|].
  split; [vm_compute; reflexivity|].
  intros it Hit.
  refine (@list_never_shows_private_of_others IntPlatform ctx_bob (list_request [])
            sample_world _ _ it _ Hit).
  vm_compute. reflexivity.
Defined.

Lemma create_unreadable_body_sample :
  identity ctx_ann = Some (ann, acme)
  /\ POST (generated "n1" 500) ctx_ann (list_request []) sample_world
     = (Normal (ServerError (js "Failed to create preset")),
        add_console (js "Failed to create filter preset:") sample_world).
Proof.
  split; [reflexivity|].
  apply (@create_unreadable_body IntPlatform _ ctx_ann _ _ ann acme eq_refl).
  left. reflexivity.
Defined.

Lemma create_keeps_names_unique_sample :
  NoDup (map owner_key (presets sample_world))
  /\ NoDup (map owner_key
                (presets (snd (POST (generated "n1" 500) ctx_bob (create_request body_x)
                                    sample_world)))).
Proof.
  assert (H : NoDup (map owner_key (presets sample_world))).
  { repeat (constructor; [cbn; intuition discriminate|]). constructor. }
  split; [exact H|].
  apply (@create_keeps_names_unique IntPlatform). exact H.
Defined.


Lemma create_response_reads_back_sample :
  exists d w',
    POST (generated "n1" 500) ctx_ann (create_request body_overflow) empty_world
    = (Normal (Created d), w')
    /\ js_value config_overflow = true
    /\ read_back config_overflow = JObj [(js "max", JNull)]
    /\ filterConfig (scalars (preset d)) = read_back config_overflow.
Proof.
  eexists. eexists. split; [vm_compute; reflexivity|].
  split; [reflexivity|]. split; [reflexivity|].
  eapply (fun H => proj1 (@create_response_reads_back IntPlatform IntPlatform_lawful
                            (generated "n1" 500) ctx_ann (create_request body_overflow)
                            empty_world _ _ body_overflow config_overflow
                            H eq_refl eq_refl eq_refl)).
  vm_compute. reflexivity.
Defined.

Lemma create_is_atomic_sample :
  (forall body, request_json (create_request body_number_description) = Some body ->
                js_value body = true)
  /\ ((exists d, fst (POST (generated "n1" 500) ctx_ann
                           (create_request body_number_description) sample_world)
                 = Normal (Created d))
      <-> presets (snd (POST (generated "n1" 500) ctx_ann
                             (create_request body_number_description) sample_world))
          <> presets sample_world).
Proof.
  assert (H : forall body, request_json (create_request body_number_description) = Some body ->
                           js_value body = true).
  { intros body E. injection E as <-. reflexivity. }
  split; [exact H|].
  apply (@create_is_atomic IntPlatform IntPlatform_lawful). exact H.
Defined.

Lemma non_string_name_never_creates_sample :
  get_prop body_number_name (js "name") = Some (JNum (NFinite (false, 7%N)))
  /\ presets (snd (POST (generated "n1" 500) ctx_ann (create_request body_number_name)
                        sample_world))
     = presets sample_world
  /\ forall d, fst (POST (generated "n1" 500) ctx_ann (create_request body_number_name)
                         sample_world)
               <> Normal (Created d).
Proof.
  split; [reflexivity|].
  apply (@non_string_name_never_creates IntPlatform _ ctx_ann (create_request body_number_name)
           sample_world body_number_name (JNum (NFinite (false, 7%N))));
    try reflexivity.
  intros s. discriminate.
Defined.

Lemma scalar_name_is_server_error_sample :
  identity ctx_ann = Some (ann, acme)
  /\ POST (generated "n1" 500) ctx_ann (create_request body_number_name) sample_world
     = (Normal (ServerError (js "Failed to create preset")),
        add_console (js "Failed to create filter preset:")
          (add_query (QFindFirst (post_lookup ann acme (JNum (NFinite (false, 7%N)))))
                     sample_world)).
Proof.
  split; [reflexivity|].
  apply (@scalar_name_is_server_error IntPlatform _ ctx_ann (create_request body_number_name)
           sample_world ann acme body_number_name (JNum (NFinite (false, 7%N))));
    first [exact I | reflexivity].
Defined.

Lemma wrong_type_is_server_error_sample :
  accepted_payload body_number_description = false
  /\ exists fc,
       get_prop body_number_description (js "filterConfig") = Some fc
       /\ POST (generated "n1" 500) ctx_ann (create_request body_number_description)
               sample_world
          = (Normal (ServerError (js "Failed to create preset")),
             add_console (js "Failed to create filter preset:")
               (add_query (QCreate (post_data ann acme body_number_description
                                              (JStr (js "T")) fc))
                  (add_query (QFindFirst (post_lookup ann acme (JStr (js "T"))))
                             sample_world))).
Proof.
  split; [reflexivity|].
  apply (@wrong_type_is_server_error IntPlatform _ ctx_ann
           (create_request body_number_description) sample_world ann acme (js "T")
           body_number_description);
    try reflexivity.
  discriminate.
Defined.


Lemma created_preset_is_listed_sample :
  exists d w' items w'',
    POST (generated "n1" 500) ctx_ann (create_request body_public_clients) sample_world
    = (Normal (Created d), w')
    /\ GET ctx_ann (list_request [(js "entityType", js "clients"); (js "isPublic", js "true")]) w'
       = (Normal (Ok items), w'')
    /\ exists it,
         In it items
         /\ id (listed it) = id (scalars (preset d))
         /\ name (listed it) = name (scalars (preset d)).
Proof.
  eexists. eexists. eexists. eexists.
  split; [vm_compute; reflexivity|]. split; [vm_compute; reflexivity|].
  eapply (@created_preset_is_listed IntPlatform (generated "n1" 500) ctx_ann
            (create_request body_public_clients)
            (list_request [(js "entityType", js "clients"); (js "isPublic", js "true")])
            sample_world).
  - vm_compute. reflexivity.
  - vm_compute. reflexivity.
  - reflexivity.
  - reflexivity.
Defined.
